(** * uORB client layer (apps/system/uorb/uORB/uORB.c)

    A shallow embedding of the topic addressing, open/registration and
    introspection functions of uORB.c, together with the properties of
    the specification that concern them.

    The C functions are thin sequences of system calls, so the embedding
    is a state monad over
      - the kernel's state ([world]), on which the system calls act
        through an abstract [kernel] (the sensor driver, the file
        descriptor table and the device namespace are not part of this
        file of the repository);
      - the caller's memory ([heap]), which the functions reach through
        the pointers they are given;
      - the [trace] of the system calls issued so far, newest first. *)

From Stdlib Require Import ZArith NArith String DecimalString DecimalPos
  DecimalZ List Lia.
From stdpp Require Import gmap strings.

Local Open Scope Z_scope.

(** ** Integer conversions of the C code *)

(** Value of an [unsigned] (32 bit) after arithmetic. *)
Definition to_unsigned (z : Z) : Z := z mod 2 ^ 32.

(** Value of an [int] (32 bit, two's complement) converted from a wider or
    unsigned value. *)
Definition to_int (z : Z) : Z := (z + 2 ^ 31) mod 2 ^ 32 - 2 ^ 31.

(** ** Constants of the system headers (NuttX values) *)

Definition EEXIST : Z := 17.
Definition EINVAL : Z := 22.
Definition O_RDONLY : Z := 1.
Definition O_WRONLY : Z := 2.
Definition O_CLOEXEC : Z := 1024.
Definition POLLIN : Z := 1.

(** ** Data *)

(** [struct orb_metadata]: the topic name and the size of one element. *)
Record orb_metadata := { o_name : string; o_size : Z }.

(** [struct sensor_reginfo_s], the argument of [SNIOC_REGISTER]. *)
Module Reg.
Record sensor_reginfo_s := { path : string; esize : Z; nbuffer : Z }.
End Reg.
Export Reg(sensor_reginfo_s).

(** [struct sensor_state_s], the raw record filled by [SNIOC_GET_STATE].
    All its fields are unsigned. *)
Record sensor_state_s := {
  min_interval : N;
  min_latency : N;
  nbuffer : N;
  nsubscribers : N;
  nadvertisers : N;
  generation : N
}.

(** The requests of [ioctl] whose argument is only read by the driver. *)
Inductive ioctl_cmd :=
| SNIOC_REGISTER (reginfo : sensor_reginfo_s)
| SNIOC_SET_USERPRIV (meta : orb_metadata)
| SNIOC_SET_BUFFER_NUMBER (n : Z)
| SNIOC_SET_INTERVAL (interval : Z)
| SNIOC_BATCH (batch_interval : Z).

(** One system call with its arguments and its return value. *)
Inductive event :=
| EAccess (p : string) (r : Z)
| EOpen (p : string) (flags : Z) (r : Z)
| EClose (fd : Z) (r : Z)
| EIoctl (fd : Z) (cmd : ioctl_cmd) (r : Z)
| EGetState (fd : Z) (r : Z)
| EWrite (fd : Z) (len : Z) (r : Z)
| EPoll (fd : Z) (events : Z) (timeout : Z) (r : Z).

(** The caller's memory: cells addressed by a block and an offset.  A
    scalar lives at offset 0 of its block, the fields of a struct at
    consecutive offsets.  A cell that is not in the map holds no
    determinate value (never written, or not the caller's). *)
Inductive val :=
| VInt (z : Z)
| VUInt (n : N)
| VBool (b : bool).

Definition ptr := option positive.
Definition NULL : ptr := None.

(** Offsets of the fields of [struct orb_state]. *)
Module orb_state.
Definition max_frequency : N := 0.
Definition min_batch_interval : N := 1.
Definition queue_size : N := 2.
Definition nsubscribers : N := 3.
Definition generation : N := 4.
(** Modelled from the spec: [struct orb_state] is declared in uORB.h,
    which is not among the sources; the specification's TopicState
    lists an [nadvertisers] member next to the five that uORB.c
    assigns. *)
Definition nadvertisers : N := 5.
End orb_state.

(** The system calls, as functions on the kernel's state; each returns the
    [int] the C call returns ([write] a length that fits one).
    [k_get_state] is [ioctl(fd, SNIOC_GET_STATE, &tmp)] and returns the
    content of [tmp] after the call next to the return value; [k_poll] is
    [poll] on one descriptor and returns its [revents] likewise. *)
Record kernel (World : Type) := {
  k_access : string -> World -> Z * World;
  k_open : string -> Z -> World -> Z * World;
  k_close : Z -> World -> Z * World;
  k_ioctl : Z -> ioctl_cmd -> World -> Z * World;
  k_get_state : Z -> World -> Z * sensor_state_s * World;
  k_write : Z -> list Byte.byte -> Z -> World -> Z * World;
  k_poll : Z -> Z -> Z -> World -> Z * Z * World
}.
Arguments k_access {World}.
Arguments k_open {World}.
Arguments k_close {World}.
Arguments k_ioctl {World}.
Arguments k_get_state {World}.
Arguments k_write {World}.
Arguments k_poll {World}.

(** ** The monad *)

Record st (World : Type) := mkst {
  world : World;
  heap : gmap (positive * N) val;
  trace : list event
}.
Arguments mkst {World}.
Arguments world {World}.
Arguments heap {World}.
Arguments trace {World}.

(** A run either returns a value in a new state, or dereferences a pointer
    it must not ([Fault]), or has not finished within its fuel
    ([Timeout]). *)
Inductive res (World A : Type) :=
| Ok (a : A) (s : st World)
| Fault
| Timeout.
Arguments Ok {World A}.
Arguments Fault {World A}.
Arguments Timeout {World A}.

Definition M (World A : Type) := st World -> res World A.

Definition pure {World A} (a : A) : M World A := fun s => Ok a s.

Definition bind {World A B} (m : M World A) (f : A -> M World B) : M World B :=
  fun s => match m s with
           | Ok a s' => f a s'
           | Fault => Fault
           | Timeout => Timeout
           end.

Declare Scope uorb_scope.
Delimit Scope uorb_scope with uorb.
Notation "x <- c1 ;; c2" := (bind c1 (fun x => c2))
  (at level 100, c1 at next level, right associativity) : uorb_scope.
Notation "c1 ;; c2" := (bind c1 (fun _ => c2))
  (at level 100, right associativity) : uorb_scope.
Local Open Scope uorb_scope.

(** ** Descriptors a trace leaves open *)

Fixpoint remove_fd (fd : Z) (l : list Z) : list Z :=
  match l with
  | [] => []
  | x :: l' => if x =? fd then l' else x :: remove_fd fd l'
  end.

(** A successful [open] adds its descriptor, [close] releases one. *)
Definition track (e : event) (l : list Z) : list Z :=
  match e with
  | EOpen _ _ r => if r <? 0 then l else r :: l
  | EClose fd _ => remove_fd fd l
  | _ => l
  end.

(** The descriptors opened and not closed by a trace (newest first). *)
Definition open_fds (t : list event) : list Z := fold_right track [] t.

(** [snprintf(path, ORB_PATH_MAX, ORB_SENSOR_PATH"%s%d", name, instance)]
    before the size limit applies. *)
Definition format_path (root name : string) (instance : Z) : string :=
  (root ++ name ++ NilZero.string_of_int (Z.to_int instance))%string.

(** ** Time source *)

(** [struct timespec], as [clock_gettime] fills it. *)
Record timespec := { tv_sec : Z; tv_nsec : Z }.

(** Value of an [unsigned long long] (64 bit). *)
Definition to_u64 (z : Z) : Z := z mod 2 ^ 64.

(** [orb_absolute_time], as a function of the [ts] that
    [clock_gettime(CLOCK_MONOTONIC, &ts)] has stored:
    [1000000ull * ts.tv_sec + ts.tv_nsec / 1000], the product and the sum
    in [unsigned long long], the quotient in [long]. *)
Definition orb_absolute_time (ts : timespec) : Z :=
  to_u64 (to_u64 (1000000 * to_u64 (tv_sec ts))
          + to_u64 (Z.quot (tv_nsec ts) 1000)).

Section UORB.

(** The macros of uORB.h, which is not among the sources. *)
Variable ORB_PATH_MAX : nat.
Variable ORB_SENSOR_PATH : string.
Variable ORB_USENSOR_PATH : string.

Context {World : Type}.
Variable K : kernel World.

Abbreviation M := (M World).
Abbreviation st := (st World).

(** *** System calls *)

Definition access (p : string) : M Z := fun s =>
  let '(r, w) := k_access K p (world s) in
  Ok r (mkst w (heap s) (EAccess p r :: trace s)).

Definition open (p : string) (flags : Z) : M Z := fun s =>
  let '(r, w) := k_open K p flags (world s) in
  Ok r (mkst w (heap s) (EOpen p flags r :: trace s)).

Definition close (fd : Z) : M Z := fun s =>
  let '(r, w) := k_close K fd (world s) in
  Ok r (mkst w (heap s) (EClose fd r :: trace s)).

Definition ioctl (fd : Z) (cmd : ioctl_cmd) : M Z := fun s =>
  let '(r, w) := k_ioctl K fd cmd (world s) in
  Ok r (mkst w (heap s) (EIoctl fd cmd r :: trace s)).

Definition ioctl_get_state (fd : Z) : M (Z * sensor_state_s) := fun s =>
  let '(r, tmp, w) := k_get_state K fd (world s) in
  Ok (r, tmp) (mkst w (heap s) (EGetState fd r :: trace s)).

Definition write (fd : Z) (data : list Byte.byte) (len : Z) : M Z := fun s =>
  let '(r, w) := k_write K fd data len (world s) in
  Ok r (mkst w (heap s) (EWrite fd len r :: trace s)).

Definition poll (fd : Z) (events : Z) (timeout : Z) : M (Z * Z) := fun s =>
  let '(r, revents, w) := k_poll K fd events timeout (world s) in
  Ok (r, revents) (mkst w (heap s) (EPoll fd events timeout r :: trace s)).

(** *** Memory accesses through the caller's pointers *)

Definition load (p : ptr) (off : N) : M val := fun s =>
  match p with
  | None => Fault
  | Some b => match heap s !! (b, off) with
              | Some v => Ok v s
              | None => Fault
              end
  end.

Definition load_int (p : ptr) : M Z :=
  v <- load p 0%N ;;
  match v with VInt z => pure z | _ => (fun _ => Fault) end.

Definition store (p : ptr) (off : N) (v : val) : M unit := fun s =>
  match p with
  | None => Fault
  | Some b => Ok tt (mkst (world s) (<[(b, off) := v]> (heap s)) (trace s))
  end.

(** *** uORB.c *)

(** The content of [path] after [snprintf]: at most [ORB_PATH_MAX - 1]
    characters are kept ([ORB_PATH_MAX], the size of the array, is
    positive). *)
Definition orb_path (meta : orb_metadata) (instance : Z) : string :=
  substring 0 (ORB_PATH_MAX - 1)
    (format_path ORB_SENSOR_PATH (o_name meta) instance).

(** The part of [orb_open] from the second [open] on; [first_open] is
    the local variable of that name. *)
Definition open_node (meta : orb_metadata) (advertiser : bool)
    (path : string) (queue_size : Z) (first_open : bool) : M Z :=
  fd <- open path
          (Z.lor O_CLOEXEC (if advertiser then O_WRONLY else O_RDONLY)) ;;
  if fd <? 0 then pure fd
  else
    (if first_open then ioctl fd (SNIOC_SET_USERPRIV meta) else pure 0) ;;
    (* Only first advertiser can successfully set buffer number *)
    (if queue_size =? 0 then pure 0
     else ioctl fd (SNIOC_SET_BUFFER_NUMBER queue_size)) ;;
    pure fd.

(** [first_open] is false when the registration is skipped and true when
    it has been gone through. *)
Definition orb_open (meta : orb_metadata) (advertiser : bool)
    (instance : Z) (queue_size : Z) : M Z :=
  let path := orb_path meta instance in
  (* Check existance before open *)
  ret <- access path ;;
  if ret <? 0 then
    let reginfo := {| Reg.path := path;
                      Reg.esize := o_size meta;
                      Reg.nbuffer := queue_size |} in
    fd <- open ORB_USENSOR_PATH O_WRONLY ;;
    if fd <? 0 then pure fd
    else
      (* Register new device node *)
      ret <- ioctl fd (SNIOC_REGISTER reginfo) ;;
      close fd ;;
      if (ret <? 0) && negb (ret =? - EEXIST) then pure ret
      else open_node meta advertiser path queue_size true
  else open_node meta advertiser path queue_size false.

Definition orb_unadvertise (fd : Z) : M Z := close fd.

Definition orb_publish_multi (fd : Z) (data : list Byte.byte) (len : Z)
    : M Z :=
  write fd data len.

Definition orb_subscribe_multi (meta : orb_metadata) (instance : Z) : M Z :=
  orb_open meta false (to_int instance) 0.

Definition orb_unsubscribe (fd : Z) : M Z := close fd.

(** [state] points to a [struct orb_state] or is null; the members are
    taken to hold the unsigned values assigned to them. *)
Definition orb_get_state (fd : Z) (state : ptr) : M Z :=
  match state with
  | None => pure (- EINVAL)
  | Some _ =>
      q <- ioctl_get_state fd ;;
      let '(ret, tmp) := q in
      if ret <? 0 then pure ret
      else
        store state orb_state.max_frequency
          (VUInt (if negb (min_interval tmp =? 0)%N
                  then (1000000 / min_interval tmp)%N else 0%N)) ;;
        store state orb_state.min_batch_interval (VUInt (min_latency tmp)) ;;
        store state orb_state.queue_size (VUInt (nbuffer tmp)) ;;
        store state orb_state.nsubscribers (VUInt (nsubscribers tmp)) ;;
        store state orb_state.generation (VUInt (generation tmp)) ;;
        pure ret
  end.

(** [updated] points to a [bool]; [fds[0].revents] is what [poll] leaves
    in it. *)
Definition orb_check (fd : Z) (updated : ptr) : M Z :=
  q <- poll fd POLLIN 0 ;;
  let '(ret, revents) := q in
  if ret <? 0 then pure (-1)
  else
    store updated 0%N (VBool (0 <? Z.land revents POLLIN)) ;;
    pure 0.

Definition orb_exists (meta : orb_metadata) (instance : Z) : M Z :=
  let path := orb_path meta instance in
  fd <- open path 0 ;;
  if fd <? 0 then pure (-1)
  else
    q <- ioctl_get_state fd ;;
    let '(ret, state) := q in
    close fd ;;
    if ret <? 0 then pure (-1)
    else pure (if (0 <? nadvertisers state)%N then 0 else -1).

(** The loop of [orb_group_count]; [instance] is the [unsigned]
    counter, converted to [int] where [orb_exists] takes it. *)
Fixpoint orb_group_count_loop (fuel : nat) (meta : orb_metadata)
    (instance : Z) : M Z :=
  match fuel with
  | O => fun _ => Timeout
  | S fuel' =>
      r <- orb_exists meta (to_int instance) ;;
      if r =? 0
      then orb_group_count_loop fuel' meta (to_unsigned (instance + 1))
      else pure (to_int instance)
  end.

Definition orb_group_count (fuel : nat) (meta : orb_metadata) : M Z :=
  orb_group_count_loop fuel meta 0.

(** Whether the probe of [instance], run in [s], finds it. *)
Definition exists_at (meta : orb_metadata) (instance : Z) (s : st) : bool :=
  match orb_exists meta instance s with
  | Ok r _ => r =? 0
  | _ => false
  end.

(** The state left by the probes of the [n] instances [i], [i + 1], ...
    run from [s] one after the other, as [orb_group_count] runs them. *)
Fixpoint after_probes (meta : orb_metadata) (i : Z) (n : nat) (s : st)
    : st :=
  match n with
  | O => s
  | S n' => match orb_exists meta i s with
            | Ok _ s' => after_probes meta (i + 1) n' s'
            | _ => s
            end
  end.

(** [instance ? *instance : orb_group_count(meta)], for [instance] a
    pointer to an [int] or null. *)
Definition select_instance (fuel : nat) (meta : orb_metadata)
    (instance : ptr) : M Z :=
  match instance with
  | Some _ => load_int instance
  | None => orb_group_count fuel meta
  end.

(** [data] is the initial payload ([None] for a null pointer).
    [uorberr] only logs. *)
Definition orb_advertise_multi_queue (fuel : nat) (meta : orb_metadata)
    (data : option (list Byte.byte)) (instance : ptr) (queue_size : Z)
    : M Z :=
  (* Open the node as an advertiser *)
  inst <- select_instance fuel meta instance ;;
  fd <- orb_open meta true inst queue_size ;;
  if fd <? 0 then pure (-1)
  else
    (* The advertiser may perform an initial publish to initialise the
       object *)
    match data with
    | Some d =>
        ret <- orb_publish_multi fd d (o_size meta) ;;
        if negb (ret =? o_size meta) then close fd ;; pure (-1)
        else pure fd
    | None => pure fd
    end.

Definition orb_set_interval (fd : Z) (interval : Z) : M Z :=
  ioctl fd (SNIOC_SET_INTERVAL interval).

(** [interval] points to an [unsigned]. *)
Definition orb_get_interval (fd : Z) (interval : ptr) : M Z :=
  q <- ioctl_get_state fd ;;
  let '(ret, tmp) := q in
  if ret <? 0 then pure ret
  else
    store interval 0%N (VUInt (min_interval tmp)) ;;
    pure ret.

Definition orb_set_batch_interval (fd : Z) (batch_interval : Z) : M Z :=
  ioctl fd (SNIOC_BATCH batch_interval).

(** [batch_interval] points to an [unsigned]. *)
Definition orb_get_batch_interval (fd : Z) (batch_interval : ptr) : M Z :=
  q <- ioctl_get_state fd ;;
  let '(ret, tmp) := q in
  if ret <? 0 then pure ret
  else
    store batch_interval 0%N (VUInt (min_latency tmp)) ;;
    pure ret.

End UORB.

(** ** A simulated sensor driver

    A concrete kernel on which the functions can be run: device nodes with
    their element size and raw state, a table of open files, and a control
    path that registers nodes.  Opening a node for writing counts an
    advertiser, for reading a subscriber; [close] undoes it. *)
Module Sim.

Record node := mknode {
  n_path : string;
  n_esize : Z;
  n_state : sensor_state_s
}.

Record file := mkfile { f_fd : Z; f_path : string; f_flags : Z }.

Record world := mkworld {
  nodes : list node;
  files : list file;
  next_fd : Z
}.

Definition find_node (p : string) (w : world) : option node :=
  find (fun n => String.eqb (n_path n) p) (nodes w).

Definition find_file (fd : Z) (w : world) : option file :=
  find (fun f => f_fd f =? fd) (files w).

Definition set_counts (adv sub : N -> N) (n : node) : node :=
  let t := n_state n in
  mknode (n_path n) (n_esize n)
    {| min_interval := min_interval t;
       min_latency := min_latency t;
       nbuffer := nbuffer t;
       nsubscribers := sub (nsubscribers t);
       nadvertisers := adv (nadvertisers t);
       generation := generation t |}.

Definition on_node (p : string) (f : node -> node) (w : world) : list node :=
  map (fun n => if String.eqb (n_path n) p then f n else n) (nodes w).

(** How a file opened with [flags] counts on its node. *)
Definition count (flags : Z) (step : N -> N) : node -> node :=
  if Z.testbit flags 1 then set_counts step id
  else if Z.testbit flags 0 then set_counts id step
  else id.

Definition fresh_state (nbuf : Z) : sensor_state_s :=
  {| min_interval := 0; min_latency := 0; nbuffer := Z.to_N nbuf;
     nsubscribers := 0; nadvertisers := 0; generation := 0 |}.

Section Driver.
(** The control path. *)
Variable ctl : string.

Definition access (p : string) (w : world) : Z * world :=
  match find_node p w with
  | Some _ => (0, w)
  | None => (-1, w)
  end.

Definition open (p : string) (flags : Z) (w : world) : Z * world :=
  if String.eqb p ctl || bool_decide (is_Some (find_node p w)) then
    (next_fd w,
     mkworld (on_node p (count flags N.succ) w)
             (mkfile (next_fd w) p flags :: files w)
             (next_fd w + 1))
  else (-1, w).

Definition close (fd : Z) (w : world) : Z * world :=
  match find_file fd w with
  | Some f =>
      (0, mkworld (on_node (f_path f) (count (f_flags f) N.pred) w)
                  (filter (fun g => negb (f_fd g =? fd)) (files w))
                  (next_fd w))
  | None => (-1, w)
  end.

Definition ioctl (fd : Z) (cmd : ioctl_cmd) (w : world) : Z * world :=
  match find_file fd w, cmd with
  | Some f, SNIOC_REGISTER r =>
      if negb (String.eqb (f_path f) ctl) then (-1, w)
      else match find_node (Reg.path r) w with
           | Some _ => (- EEXIST, w)
           | None =>
               (0, mkworld (mknode (Reg.path r) (Reg.esize r)
                              (fresh_state (Reg.nbuffer r)) :: nodes w)
                           (files w) (next_fd w))
           end
  | Some f, _ => (0, w)
  | None, _ => (-1, w)
  end.

Definition zero_state : sensor_state_s := fresh_state 0.

Definition get_state (fd : Z) (w : world) : Z * sensor_state_s * world :=
  match find_file fd w with
  | Some f => match find_node (f_path f) w with
              | Some n => (0, n_state n, w)
              | None => (-1, zero_state, w)
              end
  | None => (-1, zero_state, w)
  end.

(** The driver takes whole elements only. *)
Definition write (fd : Z) (data : list Byte.byte) (len : Z) (w : world)
    : Z * world :=
  match find_file fd w with
  | Some f => match find_node (f_path f) w with
              | Some n => if len =? n_esize n then (len, w) else (-1, w)
              | None => (-1, w)
              end
  | None => (-1, w)
  end.

Definition poll (fd events timeout : Z) (w : world) : Z * Z * world :=
  match find_file fd w with
  | Some f => match find_node (f_path f) w with
              | Some n => if (0 <? generation (n_state n))%N
                          then (1, Z.land events POLLIN, w)
                          else (0, 0, w)
              | None => (-1, 0, w)
              end
  | None => (-1, 0, w)
  end.

Definition driver : kernel world :=
  {| k_access := access; k_open := open; k_close := close;
     k_ioctl := ioctl; k_get_state := get_state; k_write := write;
     k_poll := poll |}.
End Driver.

End Sim.


(** ** Scenarios on the simulated driver

    The macros take the values of a NuttX build with [NAME_MAX] 32:
    [ORB_PATH_MAX] is [NAME_MAX + 16]. *)
Module Demo.

Definition PATH_MAX : nat := 48.
Definition SENSOR_PATH : string := "/dev/uorb/".
Definition USENSOR_PATH : string := "/dev/usensor".

Definition drv : kernel Sim.world := Sim.driver USENSOR_PATH.

(** A driver on which the existence check always comes too early:
    [access] fails even for a node that another caller has just
    registered. *)
Definition racing : kernel Sim.world :=
  {| k_access := fun p w => (-1, w);
     k_open := k_open drv; k_close := k_close drv;
     k_ioctl := k_ioctl drv; k_get_state := k_get_state drv;
     k_write := k_write drv; k_poll := k_poll drv |}.

Definition accel : orb_metadata :=
  {| o_name := "sensor_accel"; o_size := 16 |}.

(** A topic name of 40 characters: with the root and the instance the
    path has 51, four more than fit. *)
Definition long_topic : orb_metadata :=
  {| o_name := "sensor_accel_uncalibrated_high_rate_fifo"; o_size := 16 |}.

Definition payload : list Byte.byte := repeat Byte.x00 16.

Definition accel_node (instance : string) (esize : Z) (nadv : N)
    : Sim.node :=
  Sim.mknode ("/dev/uorb/sensor_accel" ++ instance) esize
    {| min_interval := 1000; min_latency := 20000; nbuffer := 4;
       nsubscribers := 1; nadvertisers := nadv; generation := 7 |}.

(** Nothing registered, nothing open. *)
Definition boot : st Sim.world := mkst (Sim.mkworld [] [] 3) ∅ [].

(** Instances 0, 1 and 3 are advertised; the node of instance 2 is
    there but has no advertiser.  Descriptor 3 is a subscriber of
    instance 0. *)
Definition running_world : Sim.world :=
  Sim.mkworld
    [accel_node "0" 16 1; accel_node "1" 16 1; accel_node "2" 16 0;
     accel_node "3" 16 1]
    [Sim.mkfile 3 "/dev/uorb/sensor_accel0" (Z.lor O_CLOEXEC O_RDONLY)]
    4.

Definition running : st Sim.world := mkst running_world ∅ [].

(** As [running], with an [int] holding 1 in block 1 of the caller's
    memory and a zeroed [nadvertisers] member in block 2. *)
Definition running_mem : st Sim.world :=
  mkst running_world
    (<[(1%positive, 0%N) := VInt 1]>
       (<[(2%positive, orb_state.nadvertisers) := VUInt 0]> ∅)) [].

(** Instance 0 was registered with elements of 8 bytes and has no
    advertiser. *)
Definition mismatched : st Sim.world :=
  mkst (Sim.mkworld [accel_node "0" 8 0] [] 3) ∅ [].

(** The node of the long topic, under the name it was registered with. *)
Definition long_registered : st Sim.world :=
  mkst (Sim.mkworld
          [Sim.mknode "/dev/uorb/sensor_accel_uncalibrated_high_rate_f" 16
             (Sim.fresh_state 0)] [] 3) ∅ [].

(** A system in which every probe finds an advertiser: any path opens
    as descriptor 3 and every state query reports one advertiser. *)
Definition crowded : kernel unit :=
  {| k_access := fun _ w => (0, w);
     k_open := fun _ _ w => (3, w);
     k_close := fun _ w => (0, w);
     k_ioctl := fun _ _ w => (0, w);
     k_get_state := fun _ w =>
       (0, {| min_interval := 0; min_latency := 0; nbuffer := 1;
              nsubscribers := 0; nadvertisers := 1; generation := 0 |}, w);
     k_write := fun _ _ len w => (len, w);
     k_poll := fun _ _ _ w => (0, 0, w) |}.

End Demo.
(** * Properties *)

Section Properties.

Variable ORB_PATH_MAX : nat.
Variable ORB_SENSOR_PATH : string.
Variable ORB_USENSOR_PATH : string.
Context {World : Type}.
Variable K : kernel World.

Local Abbreviation access := (access K).
Local Abbreviation open := (open K).
Local Abbreviation close := (close K).
Local Abbreviation ioctl := (ioctl K).
Local Abbreviation ioctl_get_state := (ioctl_get_state K).
Local Abbreviation write := (write K).
Local Abbreviation poll := (poll K).
Local Abbreviation orb_path := (orb_path ORB_PATH_MAX ORB_SENSOR_PATH).
Local Abbreviation orb_exists := (orb_exists ORB_PATH_MAX ORB_SENSOR_PATH K).
Local Abbreviation exists_at := (exists_at ORB_PATH_MAX ORB_SENSOR_PATH K).
Local Abbreviation after_probes :=
  (after_probes ORB_PATH_MAX ORB_SENSOR_PATH K).
Local Abbreviation orb_group_count_loop :=
  (orb_group_count_loop ORB_PATH_MAX ORB_SENSOR_PATH K).
Local Abbreviation orb_group_count :=
  (orb_group_count ORB_PATH_MAX ORB_SENSOR_PATH K).
Local Abbreviation open_node := (open_node K).
Local Abbreviation orb_open :=
  (orb_open ORB_PATH_MAX ORB_SENSOR_PATH ORB_USENSOR_PATH K).
Local Abbreviation select_instance :=
  (select_instance ORB_PATH_MAX ORB_SENSOR_PATH K).
Local Abbreviation orb_advertise_multi_queue :=
  (orb_advertise_multi_queue ORB_PATH_MAX ORB_SENSOR_PATH ORB_USENSOR_PATH K).
Local Abbreviation orb_get_state := (orb_get_state K).
Local Abbreviation orb_check := (orb_check K).
Local Abbreviation orb_publish_multi := (orb_publish_multi K).
Local Abbreviation orb_subscribe_multi :=
  (orb_subscribe_multi ORB_PATH_MAX ORB_SENSOR_PATH ORB_USENSOR_PATH K).
Local Abbreviation orb_unadvertise := (orb_unadvertise K).
Local Abbreviation orb_unsubscribe := (orb_unsubscribe K).
Local Abbreviation orb_get_interval := (orb_get_interval K).
Local Abbreviation orb_get_batch_interval := (orb_get_batch_interval K).

(** *** The system calls, in equational form *)

Lemma access_run p s :
  access p s =
  Ok (k_access K p (world s)).1
     (mkst (k_access K p (world s)).2 (heap s)
           (EAccess p (k_access K p (world s)).1 :: trace s)).
Proof. unfold access. by destruct (k_access K p (world s)). Qed.

Lemma open_run p fl s :
  open p fl s =
  Ok (k_open K p fl (world s)).1
     (mkst (k_open K p fl (world s)).2 (heap s)
           (EOpen p fl (k_open K p fl (world s)).1 :: trace s)).
Proof. unfold open. by destruct (k_open K p fl (world s)). Qed.

Lemma close_run fd s :
  close fd s =
  Ok (k_close K fd (world s)).1
     (mkst (k_close K fd (world s)).2 (heap s)
           (EClose fd (k_close K fd (world s)).1 :: trace s)).
Proof. unfold close. by destruct (k_close K fd (world s)). Qed.

Lemma ioctl_run fd cmd s :
  ioctl fd cmd s =
  Ok (k_ioctl K fd cmd (world s)).1
     (mkst (k_ioctl K fd cmd (world s)).2 (heap s)
           (EIoctl fd cmd (k_ioctl K fd cmd (world s)).1 :: trace s)).
Proof. unfold ioctl. by destruct (k_ioctl K fd cmd (world s)). Qed.

Lemma ioctl_get_state_run fd s :
  ioctl_get_state fd s =
  Ok (k_get_state K fd (world s)).1
     (mkst (k_get_state K fd (world s)).2 (heap s)
           (EGetState fd (k_get_state K fd (world s)).1.1 :: trace s)).
Proof.
  unfold ioctl_get_state. by destruct (k_get_state K fd (world s)) as [[??]?].
Qed.

Lemma write_run fd d len s :
  write fd d len s =
  Ok (k_write K fd d len (world s)).1
     (mkst (k_write K fd d len (world s)).2 (heap s)
           (EWrite fd len (k_write K fd d len (world s)).1 :: trace s)).
Proof. unfold write. by destruct (k_write K fd d len (world s)). Qed.

Lemma poll_run fd ev t s :
  poll fd ev t s =
  Ok (k_poll K fd ev t (world s)).1
     (mkst (k_poll K fd ev t (world s)).2 (heap s)
           (EPoll fd ev t (k_poll K fd ev t (world s)).1.1 :: trace s)).
Proof.
  unfold poll. by destruct (k_poll K fd ev t (world s)) as [[??]?].
Qed.

(** *** Integer conversions *)

Lemma to_int_small z : 0 <= z < 2 ^ 31 -> to_int z = z.
Proof.
  intros H. unfold to_int. rewrite Z.mod_small; lia.
Qed.

Lemma to_unsigned_small z : 0 <= z < 2 ^ 32 -> to_unsigned z = z.
Proof. intros H. unfold to_unsigned. apply Z.mod_small. lia. Qed.

(** *** The existence probe *)

(** The probe always returns, and what it returns and leaves behind is
    read off the three system calls. *)
Lemma orb_exists_run meta instance s :
  let path := orb_path meta instance in
  let o := k_open K path 0 (world s) in
  let q := k_get_state K o.1 o.2 in
  let c := k_close K o.1 q.2 in
  orb_exists meta instance s =
  (if o.1 <? 0
   then Ok (-1) (mkst o.2 (heap s) (EOpen path 0 o.1 :: trace s))
   else
     Ok (if q.1.1 <? 0 then -1
         else if (0 <? nadvertisers q.1.2)%N then 0 else -1)
        (mkst c.2 (heap s)
           (EClose o.1 c.1 :: EGetState o.1 q.1.1 :: EOpen path 0 o.1
            :: trace s))).
Proof.
  cbv zeta. unfold orb_exists, bind. rewrite open_run.
  destruct (_ <? 0) eqn:Hfd; [done|].
  rewrite ioctl_get_state_run. cbn [world heap trace].
  destruct (k_get_state _ _ _) as [[ret state] w2]. cbn [fst snd].
  rewrite close_run. cbn [world heap trace].
  by destruct (ret <? 0).
Qed.

Lemma remove_fd_head fd l : remove_fd fd (fd :: l) = l.
Proof. cbn. by rewrite Z.eqb_refl. Qed.

Lemma orb_exists_ok meta instance s :
  exists r s',
    orb_exists meta instance s = Ok r s' /\
    heap s' = heap s /\
    open_fds (trace s') = open_fds (trace s).
Proof.
  rewrite orb_exists_run. cbv zeta.
  destruct (_ <? 0) eqn:Hfd; eexists _, _; (split; [reflexivity|]);
    cbn [heap trace]; (split; [done|]).
  - unfold open_fds. cbn. by rewrite Hfd.
  - unfold open_fds. cbn [fold_right track]. rewrite Hfd.
    apply remove_fd_head.
Qed.

(** C1: [orb_exists] returns 0 exactly when the open of the derived path
    and the state query both succeed and the state reports at least one
    advertiser; otherwise it returns -1, whatever failed.  When the open
    succeeded the calls issued are the open, the query and the close of
    that descriptor, in this order, so no descriptor stays open. *)
Theorem orb_exists_spec meta instance s :
  let path := orb_path meta instance in
  let o := k_open K path 0 (world s) in
  let q := k_get_state K o.1 o.2 in
  let c := k_close K o.1 q.2 in
  exists r s',
    orb_exists meta instance s = Ok r s' /\
    (r = 0 <-> 0 <= o.1 /\ 0 <= q.1.1 /\ (0 < nadvertisers q.1.2)%N) /\
    (r = 0 \/ r = -1) /\
    (o.1 < 0 ->
     s' = mkst o.2 (heap s) (EOpen path 0 o.1 :: trace s)) /\
    (0 <= o.1 ->
     s' = mkst c.2 (heap s)
            (EClose o.1 c.1 :: EGetState o.1 q.1.1 :: EOpen path 0 o.1
             :: trace s)) /\
    open_fds (trace s') = open_fds (trace s).
Proof.
  intros path o q c.
  destruct (orb_exists_ok meta instance s) as (r & s' & Hrun & _ & Hfds).
  exists r, s'. split; [exact Hrun|].
  pose proof (orb_exists_run meta instance s) as E. cbv zeta in E.
  fold path o q c in E. rewrite Hrun in E.
  destruct (o.1 <? 0) eqn:Hfd;
    [apply Z.ltb_lt in Hfd | apply Z.ltb_ge in Hfd]; injection E as -> ->.
  - repeat split; solve [lia | done | intros; lia].
  - destruct (q.1.1 <? 0) eqn:Hret;
      [apply Z.ltb_lt in Hret | apply Z.ltb_ge in Hret].
    + repeat split; solve [lia | done | intros; lia].
    + destruct (0 <? nadvertisers q.1.2)%N eqn:Hn;
        [apply N.ltb_lt in Hn | apply N.ltb_ge in Hn];
        repeat split; solve [lia | done | intros; lia | auto].
Qed.

(** *** Instance enumeration *)

Lemma after_probes_step meta i n s r s1 :
  orb_exists meta i s = Ok r s1 ->
  after_probes meta i (S n) s = after_probes meta (i + 1) n s1.
Proof. intros E. cbn [after_probes]. by rewrite E. Qed.

(** The loop, started at counter [j], walks over [n] instances that
    exist and stops at the first one that does not. *)
Lemma orb_group_count_loop_run meta n :
  forall j s fuel,
    0 <= j -> j + Z.of_nat n < 2 ^ 31 ->
    (forall i, (i < n)%nat ->
       exists_at meta (j + Z.of_nat i) (after_probes meta j i s) = true) ->
    exists_at meta (j + Z.of_nat n) (after_probes meta j n s) = false ->
    (n < fuel)%nat ->
    orb_group_count_loop fuel meta j s =
    Ok (j + Z.of_nat n) (after_probes meta j (S n) s).
Proof.
  induction n as [|n IH]; intros j s fuel Hj Hn Hex Hgap Hfuel;
    (destruct fuel as [|fuel]; [lia|]);
    cbn [orb_group_count_loop]; unfold bind;
    rewrite (to_int_small j) by lia;
    destruct (orb_exists_ok meta j s) as (r & s1 & E & _);
    rewrite (after_probes_step _ _ _ _ _ _ E), E.
  - cbn [after_probes] in *. unfold exists_at in Hgap.
    rewrite Z.add_0_r in *. rewrite E in Hgap. rewrite Hgap. done.
  - pose proof (Hex 0%nat ltac:(lia)) as H0.
    cbn [after_probes] in H0. unfold exists_at in H0.
    rewrite Z.add_0_r, E in H0. rewrite H0.
    rewrite to_unsigned_small by lia.
    rewrite (IH (j + 1) s1 fuel); try lia.
    + f_equal. lia.
    + intros i Hi. specialize (Hex (S i) ltac:(lia)).
      rewrite (after_probes_step _ _ _ _ _ _ E) in Hex.
      rewrite <- Hex. f_equal. lia.
    + rewrite (after_probes_step _ _ _ _ _ _ E) in Hgap.
      rewrite <- Hgap. f_equal. lia.
Qed.

(** C2: when the probes of instances 0, ..., n-1, run one after the
    other, each find their instance and the probe of instance n does
    not, [orb_group_count] returns n (given the fuel for its n+1
    probes) and has issued exactly these n+1 probes.  Nothing is asked
    of the instances above n: with n = 2 the result is 2 whether or
    not instance 3 exists. *)
Theorem orb_group_count_spec meta (n : nat) s (fuel : nat) :
  Z.of_nat n < 2 ^ 31 ->
  (forall i, (i < n)%nat ->
     exists_at meta (Z.of_nat i) (after_probes meta 0 i s) = true) ->
  exists_at meta (Z.of_nat n) (after_probes meta 0 n s) = false ->
  (n < fuel)%nat ->
  orb_group_count fuel meta s =
  Ok (Z.of_nat n) (after_probes meta 0 (S n) s).
Proof.
  intros Hn Hex Hgap Hfuel. unfold orb_group_count.
  by rewrite (orb_group_count_loop_run meta n 0 s fuel).
Qed.

(** *** State query *)

(** The five assignments of [orb_get_state]. *)
Lemma orb_get_state_run fd b s :
  let q := k_get_state K fd (world s) in
  let tmp := q.1.2 in
  orb_get_state fd (Some b) s =
  Ok q.1.1
     (mkst q.2
        (if q.1.1 <? 0 then heap s
         else
           <[(b, orb_state.generation) := VUInt (generation tmp)]>
           (<[(b, orb_state.nsubscribers) := VUInt (nsubscribers tmp)]>
           (<[(b, orb_state.queue_size) := VUInt (nbuffer tmp)]>
           (<[(b, orb_state.min_batch_interval) := VUInt (min_latency tmp)]>
           (<[(b, orb_state.max_frequency) :=
                VUInt (if negb (min_interval tmp =? 0)%N
                       then (1000000 / min_interval tmp)%N else 0%N)]>
              (heap s))))))
        (EGetState fd q.1.1 :: trace s)).
Proof.
  cbv zeta. unfold orb_get_state, bind.
  rewrite ioctl_get_state_run.
  destruct (k_get_state K fd (world s)) as [[ret tmp] w]. cbn [fst snd].
  by destruct (ret <? 0).
Qed.

(** C5: after a successful query the [max_frequency] member is 0 when
    the reported [min_interval] is 0 and the quotient
    1000000 / min_interval otherwise; an interval of 1000 us gives
    1000 Hz. *)
Theorem orb_get_state_max_frequency fd b s :
  let q := k_get_state K fd (world s) in
  let tmp := q.1.2 in
  0 <= q.1.1 ->
  exists s',
    orb_get_state fd (Some b) s = Ok q.1.1 s' /\
    (min_interval tmp = 0%N ->
     heap s' !! (b, orb_state.max_frequency) = Some (VUInt 0)) /\
    (min_interval tmp <> 0%N ->
     heap s' !! (b, orb_state.max_frequency) =
     Some (VUInt (1000000 / min_interval tmp))) /\
    (min_interval tmp = 1000%N ->
     heap s' !! (b, orb_state.max_frequency) = Some (VUInt 1000)).
Proof.
  intros q tmp Hret. eexists. split; [apply orb_get_state_run|].
  fold q tmp. cbn [heap].
  destruct (q.1.1 <? 0) eqn:E; [apply Z.ltb_lt in E; lia|].
  repeat (rewrite lookup_insert_ne by (by intros [=])).
  rewrite lookup_insert_eq.
  split; [|split].
  - by intros ->.
  - intros Hne. by apply N.eqb_neq in Hne as ->.
  - by intros ->.
Qed.

(** C7, as the code has it: after a successful query the members
    [queue_size], [nsubscribers], [generation] and [min_batch_interval]
    hold the reported [nbuffer], [nsubscribers], [generation] and
    [min_latency]; the reported [nadvertisers] is not copied, and an
    [nadvertisers] member of the output keeps what it held before. *)
Theorem orb_get_state_counters fd b s :
  let q := k_get_state K fd (world s) in
  let tmp := q.1.2 in
  0 <= q.1.1 ->
  exists s',
    orb_get_state fd (Some b) s = Ok q.1.1 s' /\
    heap s' !! (b, orb_state.queue_size) = Some (VUInt (nbuffer tmp)) /\
    heap s' !! (b, orb_state.nsubscribers) =
      Some (VUInt (nsubscribers tmp)) /\
    heap s' !! (b, orb_state.generation) = Some (VUInt (generation tmp)) /\
    heap s' !! (b, orb_state.min_batch_interval) =
      Some (VUInt (min_latency tmp)) /\
    heap s' !! (b, orb_state.nadvertisers) =
      heap s !! (b, orb_state.nadvertisers).
Proof.
  intros q tmp Hret. eexists. split; [apply orb_get_state_run|].
  fold q tmp. cbn [heap].
  destruct (q.1.1 <? 0) eqn:E; [apply Z.ltb_lt in E; lia|].
  repeat split;
    repeat (rewrite lookup_insert_ne by (by intros [=]));
    by rewrite ?lookup_insert_eq.
Qed.

(** C8: with a null output pointer [orb_get_state] returns [-EINVAL]
    and issues no system call; with an output pointer it returns what
    the query returns, so it fails exactly when the query fails, and
    then the caller's memory is as it was. *)
Theorem orb_get_state_errors fd s :
  orb_get_state fd NULL s = Ok (- EINVAL) s /\
  - EINVAL < 0 /\
  forall b,
    let q := k_get_state K fd (world s) in
    exists s',
      orb_get_state fd (Some b) s = Ok q.1.1 s' /\
      trace s' = EGetState fd q.1.1 :: trace s /\
      (q.1.1 < 0 -> heap s' = heap s).
Proof.
  split; [done|]. split; [done|].
  intros b q. eexists. split; [apply orb_get_state_run|].
  fold q. cbn [heap trace]. split; [done|].
  intros Hret. by apply Z.ltb_lt in Hret as ->.
Qed.

(** *** Update check *)

Lemma land_POLLIN_pos revents :
  (0 <? Z.land revents POLLIN) = true <-> Z.land revents POLLIN <> 0.
Proof.
  rewrite Z.ltb_lt.
  assert (0 <= Z.land revents POLLIN) by (apply Z.land_nonneg; right; done).
  lia.
Qed.

(** C10: when the poll fails [orb_check] returns -1 and the caller's
    memory is as it was, so a flag that held nothing determinate still
    does; when the poll succeeds it returns 0 and the flag holds a
    boolean that is true exactly when [revents] has [POLLIN]. *)
Theorem orb_check_spec fd b s :
  let q := k_poll K fd POLLIN 0 (world s) in
  exists r s',
    orb_check fd (Some b) s = Ok r s' /\
    trace s' = EPoll fd POLLIN 0 q.1.1 :: trace s /\
    (q.1.1 < 0 ->
     r = -1 /\ heap s' = heap s /\
     (heap s !! (b, 0%N) = None -> heap s' !! (b, 0%N) = None)) /\
    (0 <= q.1.1 ->
     r = 0 /\
     exists u, heap s' = <[(b, 0%N) := VBool u]> (heap s) /\
               heap s' !! (b, 0%N) = Some (VBool u) /\
               (u = true <-> Z.land q.1.2 POLLIN <> 0)).
Proof.
  intros q. unfold orb_check, bind. rewrite poll_run. fold q.
  destruct q as [[ret revents] w]. cbn [fst snd].
  destruct (ret <? 0) eqn:E;
    [apply Z.ltb_lt in E | apply Z.ltb_ge in E]; cbn;
    eexists _, _; (split; [reflexivity|]); cbn [heap trace];
    (split; [done|]); (split; [intros ?|intros ?]); try lia.
  - done.
  - split; [done|]. eexists. split; [done|].
    split; [apply lookup_insert_eq|]. apply land_POLLIN_pos.
Qed.

(** *** Topic addressing *)

Lemma substring_0_length n : forall s,
  (String.length (substring 0 n s) <= n)%nat.
Proof.
  induction n as [|n IH]; intros [|c s]; cbn; try lia.
  specialize (IH s). lia.
Qed.

Lemma substring_0_prefix n : forall s,
  String.prefix (substring 0 n s) s = true.
Proof.
  induction n as [|n IH]; intros [|c s]; cbn; try done.
  destruct (Ascii.ascii_dec c c); [apply IH | done].
Qed.

Lemma substring_0_all n : forall s,
  (String.length s <= n)%nat -> substring 0 n s = s.
Proof.
  induction n as [|n IH]; intros [|c s] H; cbn in *; try done; try lia.
  f_equal. apply IH. lia.
Qed.

(** *** Open and registration *)

(** The second half of [orb_open] returns what the [open] of the path
    returns, touches no memory, and leaves that descriptor open when
    the [open] succeeded. *)
Lemma open_node_ok meta (adv : bool) path qs fo s :
  let fl := Z.lor O_CLOEXEC (if adv then O_WRONLY else O_RDONLY) in
  let o := k_open K path fl (world s) in
  exists s',
    open_node meta adv path qs fo s = Ok o.1 s' /\
    heap s' = heap s /\
    open_fds (trace s') =
    (if o.1 <? 0 then open_fds (trace s) else o.1 :: open_fds (trace s)).
Proof.
  cbv zeta. unfold open_node, bind. rewrite open_run.
  destruct (_ <? 0) eqn:Hfd.
  - eexists. split; [reflexivity|]. split; [done|].
    unfold open_fds. cbn. by rewrite Hfd.
  - destruct fo, (qs =? 0); rewrite ?ioctl_run; unfold pure;
      cbn [world heap trace]; rewrite ?ioctl_run;
      eexists; (split; [reflexivity|]); (split; [done|]);
      unfold open_fds; cbn; by rewrite Hfd.
Qed.

(** [orb_open] states its steps: the existence check, the registration
    over the control path when the check fails, the open of the node. *)
Lemma orb_open_run meta adv inst qs s :
  let path := orb_path meta inst in
  let a := k_access K path (world s) in
  let s0 := mkst a.2 (heap s) (EAccess path a.1 :: trace s) in
  let reginfo := {| Reg.path := path; Reg.esize := o_size meta;
                    Reg.nbuffer := qs |} in
  let c := k_open K ORB_USENSOR_PATH O_WRONLY a.2 in
  let sc := mkst c.2 (heap s)
              (EOpen ORB_USENSOR_PATH O_WRONLY c.1 :: trace s0) in
  let g := k_ioctl K c.1 (SNIOC_REGISTER reginfo) c.2 in
  let cl := k_close K c.1 g.2 in
  let s1 := mkst cl.2 (heap s)
              (EClose c.1 cl.1 :: EIoctl c.1 (SNIOC_REGISTER reginfo) g.1
               :: trace sc) in
  orb_open meta adv inst qs s =
  (if a.1 <? 0 then
     if c.1 <? 0 then Ok c.1 sc
     else if (g.1 <? 0) && negb (g.1 =? - EEXIST) then Ok g.1 s1
          else open_node meta adv path qs true s1
   else open_node meta adv path qs false s0).
Proof.
  cbv zeta. unfold orb_open, bind. rewrite access_run.
  destruct (_ <? 0); [|done].
  rewrite open_run. cbn [world heap trace].
  destruct (_ <? 0); [done|].
  rewrite ioctl_run. cbn [world heap trace].
  rewrite close_run. cbn [world heap trace].
  by destruct (_ && _).
Qed.

Lemma orb_open_ok meta adv inst qs s :
  exists fd s',
    orb_open meta adv inst qs s = Ok fd s' /\
    heap s' = heap s /\
    open_fds (trace s') =
    (if fd <? 0 then open_fds (trace s) else fd :: open_fds (trace s)).
Proof.
  rewrite orb_open_run. cbv zeta.
  set (a := k_access K _ _). set (c := k_open K ORB_USENSOR_PATH _ _).
  set (g := k_ioctl K _ _ _). set (cl := k_close K _ _).
  destruct (a.1 <? 0).
  - destruct (c.1 <? 0) eqn:Hc.
    + eexists _, _. split; [reflexivity|]. split; [done|].
      rewrite Hc. unfold open_fds. cbn. by rewrite Hc.
    + assert (Hfds : forall h,
                open_fds (EClose c.1 cl.1 :: EIoctl c.1 h g.1
                          :: EOpen ORB_USENSOR_PATH O_WRONLY c.1
                          :: EAccess (orb_path meta inst) a.1 :: trace s)
                = open_fds (trace s)).
      { intros h. unfold open_fds. cbn [fold_right track]. rewrite Hc.
        apply remove_fd_head. }
      destruct (_ && _) eqn:Hg.
      * eexists _, _. split; [reflexivity|]. split; [done|].
        apply andb_true_iff in Hg as [-> _]. apply Hfds.
      * match goal with |- context [open_node ?m ?ad ?p ?q ?fo ?st] =>
          destruct (open_node_ok m ad p q fo st) as (s' & -> & Hh & Ht)
        end.
        eexists _, _. split; [reflexivity|]. split; [done|].
        rewrite Ht. cbn [trace]. by rewrite Hfds.
  - match goal with |- context [open_node ?m ?ad ?p ?q ?fo ?st] =>
      destruct (open_node_ok m ad p q fo st) as (s' & -> & Hh & Ht)
    end.
    eexists _, _. split; [reflexivity|]. split; [done|].
    rewrite Ht. done.
Qed.

(** C3: when the existence check finds the path, [orb_open] goes on to
    the open of the node with [first_open] false and no registration.
    When it does not, the control path is opened write-only; if that
    fails its result is returned; otherwise the request
    [SNIOC_REGISTER] with the path, the element size and the queue size
    is issued on it and the control descriptor is closed, whatever the
    request returned.  A request that returns [-EEXIST], or does not
    fail, goes on to the open of the node with [first_open] true; one
    that fails otherwise makes [orb_open] return its result. *)
Theorem orb_open_registration meta adv inst qs s :
  let path := orb_path meta inst in
  let a := k_access K path (world s) in
  let s0 := mkst a.2 (heap s) (EAccess path a.1 :: trace s) in
  let reginfo := {| Reg.path := path; Reg.esize := o_size meta;
                    Reg.nbuffer := qs |} in
  let c := k_open K ORB_USENSOR_PATH O_WRONLY a.2 in
  let sc := mkst c.2 (heap s)
              (EOpen ORB_USENSOR_PATH O_WRONLY c.1 :: trace s0) in
  let g := k_ioctl K c.1 (SNIOC_REGISTER reginfo) c.2 in
  let cl := k_close K c.1 g.2 in
  let s1 := mkst cl.2 (heap s)
              (EClose c.1 cl.1 :: EIoctl c.1 (SNIOC_REGISTER reginfo) g.1
               :: trace sc) in
  (0 <= a.1 ->
   orb_open meta adv inst qs s = open_node meta adv path qs false s0) /\
  (a.1 < 0 -> c.1 < 0 -> orb_open meta adv inst qs s = Ok c.1 sc) /\
  (a.1 < 0 -> 0 <= c.1 ->
   open_fds (trace s1) = open_fds (trace s) /\
   (g.1 = - EEXIST \/ 0 <= g.1 ->
    orb_open meta adv inst qs s = open_node meta adv path qs true s1) /\
   (g.1 < 0 -> g.1 <> - EEXIST ->
    orb_open meta adv inst qs s = Ok g.1 s1)).
Proof.
  intros path a s0 reginfo c sc g cl s1.
  pose proof (orb_open_run meta adv inst qs s) as E. cbv zeta in E.
  fold path a s0 reginfo c sc g cl s1 in E.
  split; [|split].
  - intros Ha. apply Z.ltb_ge in Ha. by rewrite Ha in E.
  - intros Ha Hc. apply Z.ltb_lt in Ha, Hc. by rewrite Ha, Hc in E.
  - intros Ha Hc. apply Z.ltb_lt in Ha. pose proof Hc as Hc'.
    apply Z.ltb_ge in Hc. rewrite Ha, Hc in E.
    split; [|split].
    + unfold open_fds, s1, sc, s0. cbn [trace fold_right track].
      rewrite Hc. apply remove_fd_head.
    + intros Hg. rewrite E.
      destruct Hg as [Hg|Hg].
      * rewrite Hg, Z.eqb_refl. by rewrite andb_false_r.
      * apply Z.ltb_ge in Hg. by rewrite Hg.
    + intros Hg Hne. rewrite E.
      apply Z.ltb_lt in Hg. apply Z.eqb_neq in Hne. by rewrite Hg, Hne.
Qed.

Lemma substring_0_length_min n : forall s,
  String.length (substring 0 n s) = Nat.min (String.length s) n.
Proof.
  induction n as [|n IH]; intros [|c s]; cbn; try done.
  by rewrite IH.
Qed.

Lemma substring_0_split n : forall s,
  exists rest, s = (substring 0 n s ++ rest)%string.
Proof.
  induction n as [|n IH]; intros [|c s].
  - by exists EmptyString.
  - by exists (String c s).
  - by exists EmptyString.
  - destruct (IH s) as [rest E]. exists rest. cbn [substring].
    change (String c (substring 0 n s) ++ rest)%string
      with (String c (substring 0 n s ++ rest)).
    by rewrite <- E.
Qed.

(** C6, as the code has it: the path handed to the kernel is the first
    [ORB_PATH_MAX - 1] characters of root, name and instance: a prefix
    of them, all of them when they fit and exactly [ORB_PATH_MAX - 1]
    characters long when they do not.  When that path exists [orb_open]
    returns what the open of it returns: a longer name is cut, not
    refused. *)
Theorem orb_open_path_truncated meta (adv : bool) inst qs s :
  let full := format_path ORB_SENSOR_PATH (o_name meta) inst in
  let path := orb_path meta inst in
  let a := k_access K path (world s) in
  let fl := Z.lor O_CLOEXEC (if adv then O_WRONLY else O_RDONLY) in
  (String.length path <= ORB_PATH_MAX - 1)%nat /\
  String.prefix path full = true /\
  ((String.length full <= ORB_PATH_MAX - 1)%nat -> path = full) /\
  (0 <= a.1 ->
   exists s',
     orb_open meta adv inst qs s = Ok (k_open K path fl a.2).1 s') /\
  String.length path
  = Nat.min (String.length full) (ORB_PATH_MAX - 1) /\
  ((ORB_PATH_MAX - 1 < String.length full)%nat ->
   String.length path = (ORB_PATH_MAX - 1)%nat /\ path <> full) /\
  (exists rest, full = (path ++ rest)%string).
Proof.
  intros full path a fl.
  split; [apply substring_0_length|].
  split; [apply substring_0_prefix|].
  split; [apply substring_0_all|].
  assert (Hlen : String.length path
                 = Nat.min (String.length full) (ORB_PATH_MAX - 1))
    by apply substring_0_length_min.
  split; [|split; [exact Hlen|split; [|apply substring_0_split]]];
    [|intros Hlong; split; [lia|intros E; rewrite E in Hlen; lia]].
  intros Ha. rewrite orb_open_run. cbv zeta. fold path a.
  apply Z.ltb_ge in Ha. rewrite Ha.
  match goal with |- context [open_node ?m ?ad ?p ?q ?fo ?st] =>
    destruct (open_node_ok m ad p q fo st) as (s' & -> & _)
  end.
  by eexists.
Qed.

(** *** Advertising *)

(** The probes of [orb_group_count] touch no memory and leave no
    descriptor open. *)
Lemma orb_group_count_loop_ok meta fuel :
  forall j s r s',
    orb_group_count_loop fuel meta j s = Ok r s' ->
    heap s' = heap s /\ open_fds (trace s') = open_fds (trace s).
Proof.
  induction fuel as [|fuel IH]; intros j s r s' E; [done|].
  cbn [orb_group_count_loop] in E. unfold bind in E.
  destruct (orb_exists_ok meta (to_int j) s) as (x & s1 & E1 & Hh & Ht).
  rewrite E1 in E. destruct (x =? 0).
  - apply IH in E as [-> ->]. done.
  - by injection E as <- <-.
Qed.

Lemma select_instance_ok fuel meta instance s inst s0 :
  select_instance fuel meta instance s = Ok inst s0 ->
  heap s0 = heap s /\ open_fds (trace s0) = open_fds (trace s) /\
  (forall b, instance = Some b ->
     s0 = s /\ heap s !! (b, 0%N) = Some (VInt inst)).
Proof.
  destruct instance as [b|]; cbn.
  - unfold load_int, bind, load. destruct (heap s !! (b, 0%N)) as [v|] eqn:Hb;
      [|done].
    destruct v; try done. unfold pure. intros E. simplify_eq.
    naive_solver.
  - intros E. apply orb_group_count_loop_ok in E as [-> ->]. done.
Qed.

(** What [orb_advertise_multi_queue] does once the instance is chosen
    and [orb_open] has returned. *)
Lemma orb_advertise_run fuel meta data instance qs s inst s0 fd s1 :
  select_instance fuel meta instance s = Ok inst s0 ->
  orb_open meta true inst qs s0 = Ok fd s1 ->
  orb_advertise_multi_queue fuel meta data instance qs s =
  (if fd <? 0 then Ok (-1) s1
   else match data with
        | Some d =>
            let w := k_write K fd d (o_size meta) (world s1) in
            let cl := k_close K fd w.2 in
            if negb (w.1 =? o_size meta)
            then Ok (-1) (mkst cl.2 (heap s1)
                            (EClose fd cl.1 :: EWrite fd (o_size meta) w.1
                             :: trace s1))
            else Ok fd (mkst w.2 (heap s1)
                          (EWrite fd (o_size meta) w.1 :: trace s1))
        | None => Ok fd s1
        end).
Proof.
  intros Hsel Hopen. unfold orb_advertise_multi_queue, bind.
  rewrite Hsel, Hopen. destruct (fd <? 0); [done|].
  destruct data as [d|]; [|done].
  unfold orb_publish_multi. rewrite write_run. cbv zeta.
  destruct (negb _); [|done].
  rewrite close_run. done.
Qed.

(** C4: an advertise call with an initial payload, once [orb_open] has
    returned a descriptor, writes [o_size] bytes of the payload on it.
    When the write returns [o_size] the call returns the descriptor,
    which stays open; when it returns anything else the call closes
    the descriptor and returns -1, and the descriptors left open are
    those that were open before the call. *)
Theorem orb_advertise_initial_publish fuel meta d instance qs s
    inst s0 fd s1 :
  select_instance fuel meta instance s = Ok inst s0 ->
  orb_open meta true inst qs s0 = Ok fd s1 ->
  0 <= fd ->
  let w := k_write K fd d (o_size meta) (world s1) in
  let cl := k_close K fd w.2 in
  (w.1 = o_size meta ->
   exists s',
     orb_advertise_multi_queue fuel meta (Some d) instance qs s = Ok fd s' /\
     trace s' = EWrite fd (o_size meta) w.1 :: trace s1 /\
     open_fds (trace s') = fd :: open_fds (trace s)) /\
  (w.1 <> o_size meta ->
   exists s',
     orb_advertise_multi_queue fuel meta (Some d) instance qs s
     = Ok (-1) s' /\
     trace s' = EClose fd cl.1 :: EWrite fd (o_size meta) w.1 :: trace s1 /\
     open_fds (trace s') = open_fds (trace s)).
Proof.
  intros Hsel Hopen Hfd w cl.
  rewrite (orb_advertise_run _ _ _ _ _ _ _ _ _ _ Hsel Hopen).
  apply select_instance_ok in Hsel as (_ & Hsel & _).
  destruct (orb_open_ok meta true inst qs s0) as (fd' & s1' & E & _ & Ht).
  rewrite Hopen in E. injection E as <- <-.
  apply Z.ltb_ge in Hfd. rewrite Hfd in *. cbv zeta. fold w cl.
  split; intros Hw.
  - apply Z.eqb_eq in Hw. rewrite Hw. cbn [negb].
    eexists. split; [reflexivity|]. split; [done|].
    cbn [trace]. unfold open_fds in *. cbn [fold_right track].
    by rewrite Ht, Hsel.
  - apply Z.eqb_neq in Hw. rewrite Hw. cbn [negb].
    eexists. split; [reflexivity|]. split; [done|].
    cbn [trace]. unfold open_fds in *. cbn [fold_right track].
    rewrite Ht, Hsel. apply remove_fd_head.
Qed.

(** C9: [orb_advertise_multi_queue] leaves the caller's memory as it
    was, the cell behind [instance] included.  With a pointer to an
    [int] holding [v] it runs [orb_open] on instance [v]; with a null
    pointer it runs [orb_group_count] and then [orb_open] on the count.
    In both cases what it returns is the descriptor of that [orb_open]
    or -1, and the system calls after that [orb_open] are all it adds. *)
Theorem orb_advertise_instance fuel meta data qs s :
  (forall instance r s',
     orb_advertise_multi_queue fuel meta data instance qs s = Ok r s' ->
     heap s' = heap s) /\
  (forall b v,
     heap s !! (b, 0%N) = Some (VInt v) ->
     exists r s' fd s1 t,
       orb_advertise_multi_queue fuel meta data (Some b) qs s = Ok r s' /\
       orb_open meta true v qs s = Ok fd s1 /\
       trace s' = t ++ trace s1 /\
       (r = fd \/ r = -1) /\
       heap s' !! (b, 0%N) = Some (VInt v)) /\
  (forall n s0,
     orb_group_count fuel meta s = Ok n s0 ->
     exists r s' fd s1 t,
       orb_advertise_multi_queue fuel meta data NULL qs s = Ok r s' /\
       orb_open meta true n qs s0 = Ok fd s1 /\
       trace s' = t ++ trace s1 /\
       (r = fd \/ r = -1)).
Proof.
  assert (Hrun : forall instance inst s0,
    select_instance fuel meta instance s = Ok inst s0 ->
    exists r s' fd s1 t,
      orb_advertise_multi_queue fuel meta data instance qs s = Ok r s' /\
      orb_open meta true inst qs s0 = Ok fd s1 /\
      trace s' = t ++ trace s1 /\ (r = fd \/ r = -1) /\
      heap s' = heap s).
  { intros instance inst s0 Hsel.
    destruct (orb_open_ok meta true inst qs s0) as (fd & s1 & Ho & Hh & _).
    rewrite (orb_advertise_run _ _ data _ _ _ _ _ _ _ Hsel Ho).
    apply select_instance_ok in Hsel as (Hh0 & _).
    destruct (fd <? 0).
    { exists (-1), s1, fd, s1, []. rewrite Hh, Hh0. repeat split; auto. }
    destruct data as [d|]; cbv zeta.
    - destruct (negb _).
      + eexists (-1), _, fd, s1, [_; _]. cbn [heap trace].
        rewrite Hh, Hh0. repeat split; auto.
      + eexists fd, _, fd, s1, [_]. cbn [heap trace].
        rewrite Hh, Hh0. repeat split; auto.
    - exists fd, s1, fd, s1, []. rewrite Hh, Hh0. repeat split; auto. }
  split; [|split].
  - intros instance r s' E.
    destruct (select_instance fuel meta instance s) as [inst s0| |] eqn:Hsel.
    + destruct (Hrun _ _ _ Hsel) as (r' & s'' & fd & s1 & t & E' & _ & _ & _ & Hh).
      rewrite E in E'. by simplify_eq.
    + unfold orb_advertise_multi_queue, bind in E.
      by rewrite Hsel in E.
    + unfold orb_advertise_multi_queue, bind in E.
      by rewrite Hsel in E.
  - intros b v Hb.
    assert (Hsel : select_instance fuel meta (Some b) s = Ok v s).
    { cbn. unfold load_int, bind, load. by rewrite Hb. }
    destruct (Hrun _ _ _ Hsel) as (r & s' & fd & s1 & t & ? & ? & ? & ? & Hh).
    exists r, s', fd, s1, t. rewrite Hh. repeat split; auto.
  - intros n s0 Hn.
    destruct (Hrun NULL n s0 Hn) as (r & s' & fd & s1 & t & ? & ? & ? & ? & _).
    exists r, s', fd, s1, t. repeat split; auto.
Qed.

(** *** Descriptor accounting *)

(** X1: whatever the kernel answers, [orb_open] returns, leaves the
    caller's memory alone and leaks nothing: after a negative result the
    open descriptors are those from before the call (the control
    descriptor is never among them), after a result [fd >= 0] they are
    those plus [fd]. *)
Theorem orb_open_descriptors meta adv inst qs s :
  exists fd s',
    orb_open meta adv inst qs s = Ok fd s' /\
    heap s' = heap s /\
    (fd < 0 -> open_fds (trace s') = open_fds (trace s)) /\
    (0 <= fd -> open_fds (trace s') = fd :: open_fds (trace s)).
Proof.
  destruct (orb_open_ok meta adv inst qs s) as (fd & s' & E & Hh & Ht).
  exists fd, s'. split; [exact E|]. split; [exact Hh|].
  split; intros Hfd.
  - apply Z.ltb_lt in Hfd. by rewrite Hfd in Ht.
  - apply Z.ltb_ge in Hfd. by rewrite Hfd in Ht.
Qed.

Lemma orb_advertise_ok fuel meta data instance qs s r s' :
  orb_advertise_multi_queue fuel meta data instance qs s = Ok r s' ->
  (r = -1 /\ open_fds (trace s') = open_fds (trace s)) \/
  (0 <= r /\ open_fds (trace s') = r :: open_fds (trace s)).
Proof.
  intros E.
  destruct (select_instance fuel meta instance s) as [inst s0| |] eqn:Hsel;
    [|unfold orb_advertise_multi_queue, bind in E; by rewrite Hsel in E..].
  destruct (orb_open_ok meta true inst qs s0) as (fd & s1 & Ho & _ & Ht).
  rewrite (orb_advertise_run _ _ data _ _ _ _ _ _ _ Hsel Ho) in E.
  apply select_instance_ok in Hsel as (_ & Hsel & _).
  rewrite Hsel in Ht.
  destruct (fd <? 0) eqn:Hfd.
  { injection E as <- <-. by left. }
  apply Z.ltb_ge in Hfd.
  destruct data as [d|]; cbv zeta in E.
  - destruct (negb _); injection E as <- <-; cbn [trace].
    + left. split; [done|]. unfold open_fds in *. cbn [fold_right track].
      rewrite Ht. apply remove_fd_head.
    + right. split; [done|]. unfold open_fds in *. by cbn [fold_right track].
  - injection E as <- <-. by right.
Qed.

(** X2: a run of [orb_advertise_multi_queue] that returns, returns
    either -1, with the open descriptors as before the call, or a
    descriptor [r >= 0] that is the one descriptor the call has added.
    The negative results of [orb_open] are all turned into -1. *)
Theorem orb_advertise_descriptors fuel meta data instance qs s r s' :
  orb_advertise_multi_queue fuel meta data instance qs s = Ok r s' ->
  (r = -1 /\ open_fds (trace s') = open_fds (trace s)) \/
  (0 <= r /\ open_fds (trace s') = r :: open_fds (trace s)).
Proof. apply orb_advertise_ok. Qed.

(** X3: a session that is opened and then closed leaves the open
    descriptors as they were before it was opened, for an advertiser
    ([orb_advertise_multi_queue], [orb_unadvertise]) and for a subscriber
    ([orb_subscribe_multi], [orb_unsubscribe]) alike. *)
Theorem orb_session_round_trip fuel meta data instance qs i s fd s1 :
  0 <= fd ->
  (orb_advertise_multi_queue fuel meta data instance qs s = Ok fd s1 ->
   exists r s2,
     orb_unadvertise fd s1 = Ok r s2 /\
     open_fds (trace s2) = open_fds (trace s)) /\
  (orb_subscribe_multi meta i s = Ok fd s1 ->
   exists r s2,
     orb_unsubscribe fd s1 = Ok r s2 /\
     open_fds (trace s2) = open_fds (trace s)).
Proof.
  intros Hfd. split; intros E.
  - destruct (orb_advertise_ok _ _ _ _ _ _ _ _ E) as [[-> _]|[_ Ht]];
      [lia|].
    unfold orb_unadvertise. rewrite close_run. eexists _, _.
    split; [reflexivity|]. cbn [trace]. unfold open_fds in *.
    cbn [fold_right track]. rewrite Ht. apply remove_fd_head.
  - unfold orb_subscribe_multi in E.
    destruct (orb_open_ok meta false (to_int i) 0 s) as (fd' & s' & E' & _ & Ht).
    rewrite E in E'. injection E' as <- <-.
    apply Z.ltb_ge in Hfd. rewrite Hfd in Ht.
    unfold orb_unsubscribe. rewrite close_run. eexists _, _.
    split; [reflexivity|]. cbn [trace]. unfold open_fds in *.
    cbn [fold_right track]. rewrite Ht. apply remove_fd_head.
Qed.

(** *** Subscribing *)

(** X4: subscribing to a topic whose path exists takes two system calls,
    the existence check and the open of the path read-only with
    close-on-exec: no registration, no request to the driver. *)
Theorem orb_subscribe_multi_existing meta instance s :
  let path := orb_path meta (to_int instance) in
  let a := k_access K path (world s) in
  let o := k_open K path (Z.lor O_CLOEXEC O_RDONLY) a.2 in
  0 <= a.1 ->
  orb_subscribe_multi meta instance s =
  Ok o.1 (mkst o.2 (heap s)
            (EOpen path (Z.lor O_CLOEXEC O_RDONLY) o.1 :: EAccess path a.1
             :: trace s)).
Proof.
  intros path a o Ha. unfold orb_subscribe_multi.
  rewrite orb_open_run. cbv zeta. fold path a.
  apply Z.ltb_ge in Ha. rewrite Ha.
  unfold open_node, bind. rewrite open_run. cbn [world heap trace].
  fold o. by destruct (o.1 <? 0).
Qed.

(** With a queue size of 0 the open of the node adds its [open] and at
    most the attachment of the metadata. *)
Lemma open_node_no_queue meta adv path fo s :
  exists fd s' t,
    open_node meta adv path 0 fo s = Ok fd s' /\
    trace s' = t ++ trace s /\
    forall d n x, ~ In (EIoctl d (SNIOC_SET_BUFFER_NUMBER n) x) t.
Proof.
  unfold open_node, bind. rewrite open_run.
  destruct (_ <? 0).
  - eexists _, _, [_]. split; [reflexivity|]. split; [done|].
    intros d n x [?|[]]. done.
  - destruct fo; rewrite ?ioctl_run; unfold pure; cbn [Z.eqb trace].
    + eexists _, _, [_; _]. split; [reflexivity|]. split; [done|].
      intros d n x [?|[?|[]]]; done.
    + eexists _, _, [_]. split; [reflexivity|]. split; [done|].
      intros d n x [?|[]]. done.
Qed.

(** X5: a subscriber registers a topic that is missing: when the
    existence check fails and the control path opens, the calls that
    [orb_subscribe_multi] adds contain a [SNIOC_REGISTER] for the path
    with the element size of the topic and 0 buffers, and no
    [SNIOC_SET_BUFFER_NUMBER]. *)
Theorem orb_subscribe_multi_registers meta instance s :
  let path := orb_path meta (to_int instance) in
  let a := k_access K path (world s) in
  let c := k_open K ORB_USENSOR_PATH O_WRONLY a.2 in
  let reginfo := {| Reg.path := path; Reg.esize := o_size meta;
                    Reg.nbuffer := 0 |} in
  let g := k_ioctl K c.1 (SNIOC_REGISTER reginfo) c.2 in
  a.1 < 0 -> 0 <= c.1 ->
  exists r s' t,
    orb_subscribe_multi meta instance s = Ok r s' /\
    trace s' = t ++ trace s /\
    In (EIoctl c.1 (SNIOC_REGISTER reginfo) g.1) t /\
    forall d n x, ~ In (EIoctl d (SNIOC_SET_BUFFER_NUMBER n) x) t.
Proof.
  intros path a c reginfo g Ha Hc. unfold orb_subscribe_multi.
  rewrite orb_open_run. cbv zeta. fold path a c reginfo g.
  apply Z.ltb_lt in Ha. apply Z.ltb_ge in Hc. rewrite Ha, Hc.
  destruct (_ && _).
  - eexists _, _, [_; _; _; _]. split; [reflexivity|]. split; [done|].
    split; [right; left; done|].
    intros d n x [?|[?|[?|[?|[]]]]]; done.
  - match goal with |- context [open_node ?m ?ad ?p 0 ?fo ?st] =>
      destruct (open_node_no_queue m ad p fo st) as (r & s' & t & -> & Ht & Hno)
    end.
    exists r, s', (t ++ [EClose c.1 (k_close K c.1 g.2).1;
                         EIoctl c.1 (SNIOC_REGISTER reginfo) g.1;
                         EOpen ORB_USENSOR_PATH O_WRONLY c.1;
                         EAccess path a.1]).
    split; [done|]. split; [by rewrite Ht, <- app_assoc|].
    split; [apply in_or_app; right; right; left; done|].
    intros d n x Hin. apply in_app_or in Hin as [Hin|Hin].
    + by apply Hno in Hin.
    + destruct Hin as [?|[?|[?|[?|[]]]]]; done.
Qed.

(** *** Instance enumeration, the other way round *)

Lemma orb_group_count_loop_sound meta fuel :
  forall j s r s',
    0 <= j -> j + Z.of_nat fuel <= 2 ^ 31 ->
    orb_group_count_loop fuel meta j s = Ok r s' ->
    exists n : nat,
      (n < fuel)%nat /\ r = j + Z.of_nat n /\
      (forall i, (i < n)%nat ->
         exists_at meta (j + Z.of_nat i) (after_probes meta j i s) = true) /\
      exists_at meta (j + Z.of_nat n) (after_probes meta j n s) = false /\
      s' = after_probes meta j (S n) s.
Proof.
  induction fuel as [|fuel IH]; intros j s r s' Hj Hf E; [done|].
  cbn [orb_group_count_loop] in E. unfold bind in E.
  rewrite (to_int_small j) in E by lia.
  destruct (orb_exists_ok meta j s) as (x & s1 & E1 & _).
  rewrite E1 in E. destruct (x =? 0) eqn:Hx.
  - rewrite to_unsigned_small in E by lia.
    apply IH in E as (n & Hn & -> & Hex & Hgap & ->); [|lia..].
    exists (S n). split; [lia|]. split; [lia|].
    rewrite !(after_probes_step _ _ _ _ _ _ E1).
    replace (j + Z.of_nat (S n)) with (j + 1 + Z.of_nat n) by lia.
    split; [|done].
    intros [|i] Hi.
    + cbn [after_probes]. unfold exists_at. by rewrite Z.add_0_r, E1.
    + rewrite (after_probes_step _ _ _ _ _ _ E1).
      replace (j + Z.of_nat (S i)) with (j + 1 + Z.of_nat i) by lia.
      apply Hex. lia.
  - injection E as <- <-. exists 0%nat.
    rewrite (after_probes_step _ _ _ _ _ _ E1). cbn [after_probes].
    rewrite Z.add_0_r. split; [lia|]. split; [done|].
    split; [intros; lia|]. split; [|done].
    unfold exists_at. by rewrite E1.
Qed.

(** X6: what [orb_group_count] returns is a count: when it returns [r]
    (within 2^31 probes), [r] is not negative, the probes of the
    instances below [r], run one after the other, each found theirs, and
    the probe of instance [r] did not. *)
Theorem orb_group_count_sound fuel meta s r s' :
  Z.of_nat fuel <= 2 ^ 31 ->
  orb_group_count fuel meta s = Ok r s' ->
  exists n : nat,
    (n < fuel)%nat /\ r = Z.of_nat n /\
    (forall i, (i < n)%nat ->
       exists_at meta (Z.of_nat i) (after_probes meta 0 i s) = true) /\
    exists_at meta (Z.of_nat n) (after_probes meta 0 n s) = false /\
    s' = after_probes meta 0 (S n) s.
Proof.
  intros Hf E. unfold orb_group_count in E.
  by apply orb_group_count_loop_sound in E.
Qed.

Lemma orb_group_count_loop_timeout meta :
  (forall i s, exists_at meta i s = true) ->
  forall fuel j s, orb_group_count_loop fuel meta j s = Timeout.
Proof.
  intros Hall fuel.
  induction fuel as [|fuel IH]; intros j s; [done|].
  cbn [orb_group_count_loop]. unfold bind.
  specialize (Hall (to_int j) s). unfold exists_at in Hall.
  destruct (orb_exists _ _ s) as [x s1| |]; [|done..].
  rewrite Hall. apply IH.
Qed.

(** X7: the loop of [orb_group_count] has no bound of its own: on a
    system where every probe finds its instance it does not return,
    whatever the number of probes it is given. *)
Theorem orb_group_count_diverges meta :
  (forall i s, exists_at meta i s = true) ->
  forall fuel s, orb_group_count fuel meta s = Timeout.
Proof.
  intros Hall fuel s. by apply orb_group_count_loop_timeout.
Qed.

(** X15: so an advertiser that leaves the choice of the instance to
    [orb_advertise_multi_queue] (a null [instance]) does not return on
    such a system either: the choice of the instance does not end,
    whatever the number of probes. *)
Theorem orb_advertise_auto_instance_diverges meta :
  (forall i s, exists_at meta i s = true) ->
  forall fuel data qs s,
    select_instance fuel meta NULL s = Timeout /\
    orb_advertise_multi_queue fuel meta data NULL qs s = Timeout.
Proof.
  intros Hall fuel data qs s.
  assert (Hsel : select_instance fuel meta NULL s = Timeout).
  { change (select_instance fuel meta NULL s)
      with (orb_group_count_loop fuel meta 0 s).
    by apply orb_group_count_loop_timeout. }
  split; [exact Hsel|].
  unfold orb_advertise_multi_queue, bind. by rewrite Hsel.
Qed.

(** *** Intervals *)

Lemma orb_get_interval_run fd b s :
  let q := k_get_state K fd (world s) in
  orb_get_interval fd (Some b) s =
  Ok q.1.1
     (mkst q.2
        (if q.1.1 <? 0 then heap s
         else <[(b, 0%N) := VUInt (min_interval q.1.2)]> (heap s))
        (EGetState fd q.1.1 :: trace s)).
Proof.
  cbv zeta. unfold orb_get_interval, bind. rewrite ioctl_get_state_run.
  destruct (k_get_state K fd (world s)) as [[ret tmp] w]. cbn [fst snd].
  by destruct (ret <? 0).
Qed.

Lemma orb_get_batch_interval_run fd b s :
  let q := k_get_state K fd (world s) in
  orb_get_batch_interval fd (Some b) s =
  Ok q.1.1
     (mkst q.2
        (if q.1.1 <? 0 then heap s
         else <[(b, 0%N) := VUInt (min_latency q.1.2)]> (heap s))
        (EGetState fd q.1.1 :: trace s)).
Proof.
  cbv zeta. unfold orb_get_batch_interval, bind. rewrite ioctl_get_state_run.
  destruct (k_get_state K fd (world s)) as [[ret tmp] w]. cbn [fst snd].
  by destruct (ret <? 0).
Qed.

(** X8: the three queries agree.  Run on the same state of a driver that
    answers, [orb_get_batch_interval] stores what [orb_get_state] stores
    as [min_batch_interval], and the interval [v] that [orb_get_interval]
    stores and the [max_frequency] [f] of [orb_get_state] satisfy
    f = 0 when v = 0, and f * v <= 1000000 < (f + 1) * v otherwise. *)
Theorem orb_intervals_agree fd bi bb bs s :
  let q := k_get_state K fd (world s) in
  0 <= q.1.1 ->
  exists si sb ss v l f,
    orb_get_interval fd (Some bi) s = Ok q.1.1 si /\
    orb_get_batch_interval fd (Some bb) s = Ok q.1.1 sb /\
    orb_get_state fd (Some bs) s = Ok q.1.1 ss /\
    heap si !! (bi, 0%N) = Some (VUInt v) /\
    heap sb !! (bb, 0%N) = Some (VUInt l) /\
    heap ss !! (bs, orb_state.min_batch_interval) = Some (VUInt l) /\
    heap ss !! (bs, orb_state.max_frequency) = Some (VUInt f) /\
    (v = 0 -> f = 0)%N /\
    (0 < v -> f * v <= 1000000 < (f + 1) * v)%N.
Proof.
  intros q Hret.
  pose proof (orb_get_interval_run fd bi s) as Ei.
  pose proof (orb_get_batch_interval_run fd bb s) as Eb.
  pose proof (orb_get_state_run fd bs s) as Es.
  cbv zeta in Ei, Eb, Es. fold q in Ei, Eb, Es.
  apply Z.ltb_ge in Hret. rewrite Hret in Ei, Eb, Es.
  eexists _, _, _, _, _, _.
  split; [exact Ei|]. split; [exact Eb|]. split; [exact Es|]. cbn [heap].
  split; [apply lookup_insert_eq|]. split; [apply lookup_insert_eq|].
  split.
  { repeat (rewrite lookup_insert_ne by (by intros [=])).
    apply lookup_insert_eq. }
  split.
  { repeat (rewrite lookup_insert_ne by (by intros [=])).
    apply lookup_insert_eq. }
  set (v := min_interval q.1.2). split.
  - intros ->. done.
  - intros Hv. assert ((v =? 0)%N = false) as -> by (apply N.eqb_neq; lia).
    cbn [negb].
    pose proof (N.div_mod 1000000 v ltac:(lia)) as Hd.
    pose proof (N.mod_lt 1000000 v ltac:(lia)) as Hm.
    set (f := (1000000 / v)%N) in *. set (m := (1000000 mod v)%N) in *.
    clearbody f m v. clear -Hd Hm. nia.
Qed.

(** X9: the [max_frequency] that [orb_get_state] stores is at most
    1000000, and it is 0 exactly when the reported interval is 0 or
    longer than 1000000 us: an interval of more than a second reads as
    no interval at all. *)
Theorem orb_get_state_max_frequency_range fd b s :
  let q := k_get_state K fd (world s) in
  0 <= q.1.1 ->
  exists s' f,
    orb_get_state fd (Some b) s = Ok q.1.1 s' /\
    heap s' !! (b, orb_state.max_frequency) = Some (VUInt f) /\
    (f <= 1000000)%N /\
    (f = 0 <-> min_interval q.1.2 = 0 \/ 1000000 < min_interval q.1.2)%N.
Proof.
  intros q Hret. pose proof (orb_get_state_run fd b s) as Es.
  cbv zeta in Es. fold q in Es.
  apply Z.ltb_ge in Hret. rewrite Hret in Es.
  eexists _, _. split; [exact Es|]. cbn [heap]. split.
  { repeat (rewrite lookup_insert_ne by (by intros [=])).
    apply lookup_insert_eq. }
  set (v := min_interval q.1.2).
  destruct (v =? 0)%N eqn:Hv; cbn [negb].
  - apply N.eqb_eq in Hv. split; [lia|]. split; auto.
  - apply N.eqb_neq in Hv.
    pose proof (N.div_mod 1000000 v Hv) as Hd.
    pose proof (N.mod_lt 1000000 v Hv) as Hm.
    split; [apply N.Div0.div_le_upper_bound; lia|]. split.
    + intros Hf. right. rewrite Hf in *. lia.
    + intros [?|Hbig]; [lia|]. apply N.div_small. lia.
Qed.

(** X10: only [orb_get_state] checks its output pointer.  With a null
    pointer [orb_get_interval], [orb_get_batch_interval] and [orb_check]
    still issue their system call; they return the failure when it
    fails, and write through the null pointer when it succeeds. *)
Theorem orb_null_outputs fd s :
  let q := k_get_state K fd (world s) in
  let p := k_poll K fd POLLIN 0 (world s) in
  (q.1.1 < 0 ->
   orb_get_interval fd NULL s =
     Ok q.1.1 (mkst q.2 (heap s) (EGetState fd q.1.1 :: trace s)) /\
   orb_get_batch_interval fd NULL s =
     Ok q.1.1 (mkst q.2 (heap s) (EGetState fd q.1.1 :: trace s))) /\
  (0 <= q.1.1 ->
   orb_get_interval fd NULL s = Fault /\
   orb_get_batch_interval fd NULL s = Fault) /\
  (p.1.1 < 0 ->
   orb_check fd NULL s =
     Ok (-1) (mkst p.2 (heap s) (EPoll fd POLLIN 0 p.1.1 :: trace s))) /\
  (0 <= p.1.1 -> orb_check fd NULL s = Fault).
Proof.
  intros q p.
  unfold orb_get_interval, orb_get_batch_interval, orb_check, bind.
  rewrite ioctl_get_state_run, poll_run. fold q p.
  destruct q as [[ret tmp] w], p as [[pr rev] w']. cbn [fst snd].
  split; [|split; [|split]]; intros Hr;
    [apply Z.ltb_lt in Hr | apply Z.ltb_ge in Hr
    | apply Z.ltb_lt in Hr | apply Z.ltb_ge in Hr];
    rewrite Hr; auto.
Qed.

(** *** Time source *)

Lemma orb_absolute_time_micros ts :
  0 <= tv_sec ts -> 0 <= tv_nsec ts < 1000000000 ->
  1000000 * tv_sec ts + 999999 < 2 ^ 64 ->
  orb_absolute_time ts = (tv_sec ts * 1000000000 + tv_nsec ts) / 1000.
Proof.
  intros Hs Hn Hfit. unfold orb_absolute_time, to_u64.
  rewrite Z.quot_div_nonneg by lia.
  assert (0 <= tv_nsec ts / 1000 <= 999999) as Hq.
  { split; [apply Z.div_pos; lia|].
    apply Z.lt_succ_r, Z.div_lt_upper_bound; lia. }
  rewrite (Z.mod_small (tv_sec ts)) by lia.
  rewrite (Z.mod_small (1000000 * tv_sec ts)) by lia.
  rewrite (Z.mod_small (tv_nsec ts / 1000)) by lia.
  rewrite Z.mod_small by lia.
  replace (tv_sec ts * 1000000000 + tv_nsec ts)
    with (tv_nsec ts + 1000000 * tv_sec ts * 1000) by lia.
  rewrite Z.div_add by lia. lia.
Qed.

(** X11: for a clock reading of [sec] seconds and [nsec] nanoseconds
    (nsec below one second, and sec small enough for the microseconds to
    fit 64 bits) [orb_absolute_time] is the reading in whole
    microseconds, rounded down: 1000 * t <= sec * 10^9 + nsec <
    1000 * (t + 1). *)
Theorem orb_absolute_time_exact ts :
  0 <= tv_sec ts -> 0 <= tv_nsec ts < 1000000000 ->
  1000000 * tv_sec ts + 999999 < 2 ^ 64 ->
  let t := orb_absolute_time ts in
  let ns := tv_sec ts * 1000000000 + tv_nsec ts in
  t = tv_sec ts * 1000000 + tv_nsec ts / 1000 /\
  1000 * t <= ns < 1000 * (t + 1).
Proof.
  intros Hs Hn Hfit t ns. subst t.
  rewrite orb_absolute_time_micros by done. fold ns.
  pose proof (Z.div_mod ns 1000 ltac:(lia)) as Hd.
  pose proof (Z.mod_pos_bound ns 1000 ltac:(lia)) as Hm.
  split; [|lia]. subst ns.
  replace (tv_sec ts * 1000000000 + tv_nsec ts)
    with (tv_nsec ts + tv_sec ts * 1000000 * 1000) by lia.
  rewrite Z.div_add by lia. lia.
Qed.

(** X12: [orb_absolute_time] does not go back: of two clock readings in
    that range, the later one (more seconds, or as many and no fewer
    nanoseconds) gives the larger or the same time. *)
Theorem orb_absolute_time_monotone ts1 ts2 :
  0 <= tv_sec ts1 -> 0 <= tv_nsec ts1 < 1000000000 ->
  0 <= tv_nsec ts2 < 1000000000 ->
  1000000 * tv_sec ts2 + 999999 < 2 ^ 64 ->
  tv_sec ts1 < tv_sec ts2 \/
  (tv_sec ts1 = tv_sec ts2 /\ tv_nsec ts1 <= tv_nsec ts2) ->
  orb_absolute_time ts1 <= orb_absolute_time ts2.
Proof.
  intros Hs1 Hn1 Hn2 Hfit Hle.
  rewrite !orb_absolute_time_micros by lia.
  apply Z.div_le_mono; lia.
Qed.

(** *** Paths of the instances of a topic *)

Lemma append_cons c (a b : string) :
  (String c a ++ b)%string = String c (a ++ b).
Proof. reflexivity. Qed.

Lemma append_inj_r s : forall a b : string, (s ++ a = s ++ b)%string -> a = b.
Proof.
  induction s as [|c s IH]; intros a b E; [done|].
  rewrite !append_cons in E. injection E. auto.
Qed.

Lemma string_of_Z_inj a b :
  NilZero.string_of_int (Z.to_int a) = NilZero.string_of_int (Z.to_int b) ->
  a = b.
Proof.
  intros E. apply DecimalZ.to_int_inj.
  assert (forall z, NilZero.int_of_string (NilZero.string_of_int (Z.to_int z))
                    = Some (Z.to_int z)) as Hisi.
  { intros z. apply NilZero.isi; destruct z; cbn; try discriminate;
      intros [= H]; by apply DecimalPos.Unsigned.to_uint_nonnil in H. }
  pose proof (Hisi a) as Ha. rewrite E, Hisi in Ha. by injection Ha.
Qed.

Lemma substring_0_append n : forall a b : string,
  (n <= String.length a)%nat ->
  substring 0 n (a ++ b) = substring 0 n a.
Proof.
  induction n as [|n IH]; intros [|c a] b H; cbn in H; try lia.
  - by destruct b.
  - done.
  - rewrite append_cons. cbn. f_equal. apply IH. lia.
Qed.

Lemma append_assoc (a b c : string) : (a ++ (b ++ c) = (a ++ b) ++ c)%string.
Proof.
  induction a as [|x a IH]; [done|]. by rewrite !append_cons, IH.
Qed.

(** X13: the instances of a topic have paths of their own as long as the
    paths fit: two instance numbers whose full paths are within
    [ORB_PATH_MAX - 1] characters and whose derived paths are equal are
    the same number. *)
Theorem orb_path_instance_inj meta i j :
  (String.length (format_path ORB_SENSOR_PATH (o_name meta) i)
   <= ORB_PATH_MAX - 1)%nat ->
  (String.length (format_path ORB_SENSOR_PATH (o_name meta) j)
   <= ORB_PATH_MAX - 1)%nat ->
  orb_path meta i = orb_path meta j ->
  i = j.
Proof.
  intros Hi Hj E. unfold orb_path in E.
  rewrite !substring_0_all in E by done.
  unfold format_path in E.
  by apply append_inj_r, append_inj_r, string_of_Z_inj in E.
Qed.

(** X14: a name that fills the path alone makes all its instances one:
    when root and name have [ORB_PATH_MAX - 1] characters or more, every
    instance number gives the same path. *)
Theorem orb_path_long_name_aliases meta i j :
  (ORB_PATH_MAX - 1 <= String.length (ORB_SENSOR_PATH ++ o_name meta))%nat ->
  orb_path meta i = orb_path meta j.
Proof.
  intros H. unfold orb_path, format_path.
  set (di := NilZero.string_of_int (Z.to_int i)).
  set (dj := NilZero.string_of_int (Z.to_int j)).
  rewrite (append_assoc ORB_SENSOR_PATH (o_name meta) di).
  rewrite (append_assoc ORB_SENSOR_PATH (o_name meta) dj).
  rewrite (substring_0_append _ _ di H), (substring_0_append _ _ dj H).
  reflexivity.
Qed.

End Properties.

(** * Runs on the simulated driver *)

Section Runs.

Import Demo.

Local Abbreviation orb_exists := (orb_exists PATH_MAX SENSOR_PATH).
Local Abbreviation orb_group_count := (orb_group_count PATH_MAX SENSOR_PATH).
Local Abbreviation orb_open := (orb_open PATH_MAX SENSOR_PATH USENSOR_PATH).
Local Abbreviation orb_advertise_multi_queue :=
  (orb_advertise_multi_queue PATH_MAX SENSOR_PATH USENSOR_PATH).
Local Abbreviation orb_subscribe_multi :=
  (orb_subscribe_multi PATH_MAX SENSOR_PATH USENSOR_PATH).

(** Instance 0 of the running system has an advertiser: the probe
    returns 0 and leaves no descriptor open. *)
Lemma orb_exists_spec_witness :
  exists s',
    orb_exists drv accel 0 running = Ok 0 s' /\ open_fds (trace s') = [].
Proof.
  destruct (orb_exists_spec PATH_MAX SENSOR_PATH drv accel 0 running)
    as (r & s' & E & Hiff & _ & _ & _ & Hfds).
  assert (r = 0) as -> by (apply Hiff; by vm_compute).
  exists s'. split; [exact E | exact Hfds].
Defined.

(** Instances 0 and 1 are advertised, instance 2 is not, instance 3 is:
    the count is 2. *)
Lemma orb_group_count_spec_witness :
  exists_at PATH_MAX SENSOR_PATH drv accel 3 running = true /\
  orb_group_count drv 3 accel running =
  Ok 2 (after_probes PATH_MAX SENSOR_PATH drv accel 0 3 running).
Proof.
  split; [by vm_compute|].
  apply (orb_group_count_spec PATH_MAX SENSOR_PATH drv accel 2 running 3).
  - by vm_compute.
  - intros [|[|i]] Hi; [by vm_compute | by vm_compute | lia].
  - by vm_compute.
  - lia.
Defined.

(** The first open of a topic registers it; on the racing driver the
    request returns [-EEXIST] and the open goes on all the same, with
    [first_open] true. *)
Lemma orb_open_registration_witness :
  (exists s1,
     orb_open drv accel true 0 4 boot =
     open_node drv accel true "/dev/uorb/sensor_accel0" 4 true s1 /\
     open_fds (trace s1) = []) /\
  (exists s1,
     orb_open racing accel true 0 4 running =
     open_node racing accel true "/dev/uorb/sensor_accel0" 4 true s1 /\
     In (EIoctl 4 (SNIOC_REGISTER
                     {| Reg.path := "/dev/uorb/sensor_accel0";
                        Reg.esize := 16; Reg.nbuffer := 4 |}) (- EEXIST))
        (trace s1)).
Proof.
  split.
  - destruct (orb_open_registration PATH_MAX SENSOR_PATH USENSOR_PATH drv
                accel true 0 4 boot) as (_ & _ & H).
    destruct H as (Hfds & Hgo & _); [by vm_compute | by vm_compute |].
    eexists. split; [apply Hgo; right; by vm_compute | exact Hfds].
  - destruct (orb_open_registration PATH_MAX SENSOR_PATH USENSOR_PATH racing
                accel true 0 4 running) as (_ & _ & H).
    destruct H as (_ & Hgo & _); [by vm_compute | by vm_compute |].
    eexists. split; [apply Hgo; left; by vm_compute|].
    vm_compute. auto.
Defined.

(** An advertiser with a payload of the registered element size gets
    its descriptor; where the node takes elements of another size the
    write fails, and the call returns -1 with no descriptor left open. *)
Lemma orb_advertise_initial_publish_witness :
  (exists s',
     orb_advertise_multi_queue drv 3 accel (Some payload) NULL 4 boot
     = Ok 4 s' /\
     open_fds (trace s') = [4]) /\
  (exists s',
     orb_advertise_multi_queue drv 3 accel (Some payload) NULL 0 mismatched
     = Ok (-1) s' /\
     open_fds (trace s') = []).
Proof.
  split.
  - edestruct (orb_advertise_initial_publish PATH_MAX SENSOR_PATH
                 USENSOR_PATH drv 3 accel payload NULL 4 boot)
      as [Hok _]; [vm_compute; reflexivity | vm_compute; reflexivity | by vm_compute |].
    destruct Hok as (s' & E & _ & Hfds); [by vm_compute|].
    exists s'. split; [exact E | exact Hfds].
  - edestruct (orb_advertise_initial_publish PATH_MAX SENSOR_PATH
                 USENSOR_PATH drv 3 accel payload NULL 0 mismatched)
      as [_ Hshort]; [vm_compute; reflexivity | vm_compute; reflexivity | by vm_compute |].
    destruct Hshort as (s' & E & _ & Hfds); [by vm_compute|].
    exists s'. split; [exact E | exact Hfds].
Defined.

(** The node of instance 0 reports an interval of 1000 us. *)
Lemma orb_get_state_max_frequency_witness :
  exists s',
    orb_get_state drv 3 (Some 2%positive) running_mem = Ok 0 s' /\
    heap s' !! (2%positive, orb_state.max_frequency) = Some (VUInt 1000).
Proof.
  destruct (orb_get_state_max_frequency drv 3 2%positive running_mem)
    as (s' & E & _ & _ & H); [by vm_compute|].
  exists s'. split; [exact E | apply H; by vm_compute].
Defined.

(** C7 fails as stated: the driver reports one advertiser, the query
    succeeds, and the [nadvertisers] member of the output still holds
    the 0 it held before. *)
Lemma orb_get_state_nadvertisers_counterexample :
  exists s',
    orb_get_state drv 3 (Some 2%positive) running_mem = Ok 0 s' /\
    nadvertisers (k_get_state drv 3 (world running_mem)).1.2 = 1%N /\
    heap s' !! (2%positive, orb_state.nadvertisers) = Some (VUInt 0) /\
    heap s' !! (2%positive, orb_state.nadvertisers) <>
    Some (VUInt (nadvertisers (k_get_state drv 3 (world running_mem)).1.2)).
Proof.
  eexists. split; [reflexivity|]. by vm_compute.
Qed.

(** The counters of instance 0 arrive in the output; its [nadvertisers]
    member is as before. *)
Lemma orb_get_state_counters_witness :
  exists s',
    orb_get_state drv 3 (Some 2%positive) running_mem = Ok 0 s' /\
    heap s' !! (2%positive, orb_state.queue_size) = Some (VUInt 4) /\
    heap s' !! (2%positive, orb_state.generation) = Some (VUInt 7) /\
    heap s' !! (2%positive, orb_state.nadvertisers) = Some (VUInt 0).
Proof.
  destruct (orb_get_state_counters drv 3 2%positive running_mem)
    as (s' & E & Hq & _ & Hg & _ & Hn); [by vm_compute|].
  exists s'. repeat split; [exact E | exact Hq | exact Hg | exact Hn].
Defined.

(** Descriptor 9 is not open: the query fails and the output is left
    alone. *)
Lemma orb_get_state_errors_witness :
  orb_get_state drv 3 NULL running_mem = Ok (-22) running_mem /\
  exists s',
    orb_get_state drv 9 (Some 2%positive) running_mem = Ok (-1) s' /\
    heap s' = heap running_mem.
Proof.
  split; [apply (orb_get_state_errors drv 3 running_mem)|].
  destruct (orb_get_state_errors drv 9 running_mem) as (_ & _ & H).
  destruct (H 2%positive) as (s' & E & _ & Hh).
  exists s'. split; [exact E | apply Hh; by vm_compute].
Defined.

(** C6 fails as stated: root, name and instance take 51 characters, 47
    fit, and the open succeeds on the path cut after 47. *)
Lemma orb_open_long_name_counterexample :
  (String.length (format_path SENSOR_PATH (o_name long_topic) 0)
   > PATH_MAX - 1)%nat /\
  exists s',
    orb_open drv long_topic true 0 0 boot = Ok 4 s' /\
    0 <= 4 /\
    In (EOpen "/dev/uorb/sensor_accel_uncalibrated_high_rate_f"
          (Z.lor O_CLOEXEC O_WRONLY) 4) (trace s').
Proof.
  split; [vm_compute; lia|].
  eexists. split; [vm_compute; reflexivity|]. split; [done|].
  vm_compute. auto.
Qed.

(** Once the long topic is registered under its cut name, a subscriber
    opens it under that name. *)
Lemma orb_open_path_truncated_witness :
  orb_path PATH_MAX SENSOR_PATH long_topic 0 =
    "/dev/uorb/sensor_accel_uncalibrated_high_rate_f"%string /\
  (exists s', orb_open drv long_topic false 0 0 long_registered = Ok 3 s') /\
  String.length (format_path SENSOR_PATH (o_name long_topic) 0) = 51%nat /\
  String.length (orb_path PATH_MAX SENSOR_PATH long_topic 0) = 47%nat.
Proof.
  split; [by vm_compute|].
  destruct (orb_open_path_truncated PATH_MAX SENSOR_PATH USENSOR_PATH drv
              long_topic false 0 0 long_registered)
    as (_ & _ & _ & H & _ & Hcut & _).
  split; [|split; [by vm_compute|]].
  - destruct H as (s' & E); [by vm_compute|].
    exists s'. exact E.
  - apply Hcut. vm_compute. lia.
Defined.

(** The caller's [int] holds 1: instance 1 is opened and the [int] is
    still 1 afterwards. *)
Lemma orb_advertise_instance_witness :
  exists r s' fd s1 t,
    orb_advertise_multi_queue drv 3 accel None (Some 1%positive) 0
      running_mem = Ok r s' /\
    orb_open drv accel true 1 0 running_mem = Ok fd s1 /\
    trace s' = t ++ trace s1 /\
    (r = fd \/ r = -1) /\
    heap s' !! (1%positive, 0%N) = Some (VInt 1).
Proof.
  destruct (orb_advertise_instance PATH_MAX SENSOR_PATH USENSOR_PATH drv 3
              accel None 0 running_mem) as (_ & H & _).
  apply (H 1%positive 1). by vm_compute.
Defined.

(** Descriptor 9 is not open: the poll fails and the flag, never
    written, stays so.  Descriptor 3 has data to read. *)
Lemma orb_check_spec_witness :
  (exists s',
     orb_check drv 9 (Some 3%positive) running_mem = Ok (-1) s' /\
     heap s' !! (3%positive, 0%N) = None) /\
  (exists s',
     orb_check drv 3 (Some 3%positive) running_mem = Ok 0 s' /\
     heap s' !! (3%positive, 0%N) = Some (VBool true)).
Proof.
  split.
  - destruct (orb_check_spec drv 9 3%positive running_mem)
      as (r & s' & E & _ & H & _).
    destruct H as (-> & _ & Hn); [by vm_compute|].
    exists s'. split; [exact E | apply Hn; by vm_compute].
  - destruct (orb_check_spec drv 3 3%positive running_mem)
      as (r & s' & E & _ & _ & H).
    destruct H as (-> & u & _ & Hu & Hiff); [by vm_compute|].
    assert (u = true) as -> by (apply Hiff; by vm_compute).
    exists s'. split; [exact E | exact Hu].
Defined.

(** ** Further runs *)

(** The first open of a topic returns descriptor 4, the only one left
    open; the control descriptor 3 is closed again. *)
Lemma orb_open_descriptors_witness :
  exists s',
    orb_open drv accel true 0 4 boot = Ok 4 s' /\ open_fds (trace s') = [4].
Proof.
  destruct (orb_open_descriptors PATH_MAX SENSOR_PATH USENSOR_PATH drv accel
              true 0 4 boot) as (fd & s' & E & _ & _ & Ht).
  vm_compute in E. injection E as <- <-.
  eexists. split; [vm_compute; reflexivity|]. by apply Ht.
Defined.

Lemma orb_advertise_descriptors_witness :
  exists s',
    orb_advertise_multi_queue drv 3 accel None NULL 4 boot = Ok 4 s' /\
    open_fds (trace s') = [4].
Proof.
  eexists. split; [vm_compute; reflexivity|].
  edestruct (orb_advertise_descriptors PATH_MAX SENSOR_PATH USENSOR_PATH drv
               3 accel None NULL 4 boot) as [[H _]|[_ H]];
    [vm_compute; reflexivity | discriminate H | exact H].
Defined.

(** Advertise and unadvertise, subscribe and unsubscribe, from boot. *)
Lemma orb_session_round_trip_witness :
  (exists s1 r s2,
     orb_advertise_multi_queue drv 3 accel None NULL 4 boot = Ok 4 s1 /\
     orb_unadvertise drv 4 s1 = Ok r s2 /\ open_fds (trace s2) = []) /\
  (exists s1 r s2,
     orb_subscribe_multi drv accel 0 boot = Ok 4 s1 /\
     orb_unsubscribe drv 4 s1 = Ok r s2 /\ open_fds (trace s2) = []).
Proof.
  split.
  - eexists. 
    edestruct (orb_session_round_trip PATH_MAX SENSOR_PATH USENSOR_PATH drv
                 3 accel None NULL 4 0 boot 4) as [Ha _]; [done|].
    destruct Ha as (r & s2 & E & Ht); [vm_compute; reflexivity|].
    exists r, s2. split; [vm_compute; reflexivity|]. split; [exact E|exact Ht].
  - eexists.
    edestruct (orb_session_round_trip PATH_MAX SENSOR_PATH USENSOR_PATH drv
                 3 accel None NULL 4 0 boot 4) as [_ Hs]; [done|].
    destruct Hs as (r & s2 & E & Ht); [vm_compute; reflexivity|].
    exists r, s2. split; [vm_compute; reflexivity|]. split; [exact E|exact Ht].
Defined.

(** A subscriber of instance 1 of the running system: two calls. *)
Lemma orb_subscribe_multi_existing_witness :
  orb_subscribe_multi drv accel 1 running =
  Ok 4 (mkst (k_open drv "/dev/uorb/sensor_accel1" 1025 running_world).2 ∅
          [EOpen "/dev/uorb/sensor_accel1" 1025 4;
           EAccess "/dev/uorb/sensor_accel1" 0]).
Proof.
  apply (orb_subscribe_multi_existing PATH_MAX SENSOR_PATH USENSOR_PATH drv
           accel 1 running).
  by vm_compute.
Defined.

(** A subscriber at boot registers the topic, with no buffer. *)
Lemma orb_subscribe_multi_registers_witness :
  exists r s' t,
    orb_subscribe_multi drv accel 0 boot = Ok r s' /\
    trace s' = t ++ trace boot /\
    In (EIoctl 3 (SNIOC_REGISTER
                    {| Reg.path := "/dev/uorb/sensor_accel0";
                       Reg.esize := 16; Reg.nbuffer := 0 |}) 0) t.
Proof.
  destruct (orb_subscribe_multi_registers PATH_MAX SENSOR_PATH USENSOR_PATH
              drv accel 0 boot) as (r & s' & t & E & Ht & Hin & _);
    [by vm_compute | by vm_compute |].
  exists r, s', t. split; [exact E|]. split; [exact Ht | exact Hin].
Defined.

(** The count of the running system is 2: instances 0 and 1 were found,
    instance 2 was not. *)
Lemma orb_group_count_sound_witness :
  exists n : nat,
    Z.of_nat n = 2 /\
    exists_at PATH_MAX SENSOR_PATH drv accel (Z.of_nat n)
      (after_probes PATH_MAX SENSOR_PATH drv accel 0 n running) = false.
Proof.
  edestruct (orb_group_count_sound PATH_MAX SENSOR_PATH drv 3 accel running 2)
    as (n & _ & Hn & _ & Hgap & _);
    [by vm_compute | vm_compute; reflexivity |].
  exists n. split; [by rewrite <- Hn | exact Hgap].
Defined.

(** On the crowded system the count never comes. *)
Lemma orb_group_count_diverges_witness :
  orb_group_count crowded 1000 accel (mkst tt ∅ []) = Timeout.
Proof.
  apply (orb_group_count_diverges PATH_MAX SENSOR_PATH crowded accel).
  intros i s. reflexivity.
Defined.

Lemma orb_advertise_auto_instance_diverges_witness :
  orb_advertise_multi_queue crowded 1000 accel None NULL 0 (mkst tt ∅ [])
  = Timeout.
Proof.
  apply (orb_advertise_auto_instance_diverges PATH_MAX SENSOR_PATH
           USENSOR_PATH crowded accel).
  intros i s. reflexivity.
Defined.

(** Instance 0 of the running system: an interval of 1000 us, a latency
    of 20000 us, a frequency of 1000 Hz. *)
Lemma orb_intervals_agree_witness :
  exists si sb ss,
    orb_get_interval drv 3 (Some 5%positive) running_mem = Ok 0 si /\
    orb_get_batch_interval drv 3 (Some 6%positive) running_mem = Ok 0 sb /\
    orb_get_state drv 3 (Some 2%positive) running_mem = Ok 0 ss /\
    heap si !! (5%positive, 0%N) = Some (VUInt 1000) /\
    heap sb !! (6%positive, 0%N) = Some (VUInt 20000) /\
    heap ss !! (2%positive, orb_state.max_frequency) = Some (VUInt 1000).
Proof.
  destruct (orb_intervals_agree drv 3 5%positive 6%positive 2%positive
              running_mem)
    as (si & sb & ss & v & l & f & Ei & Eb & Es & Hv & Hl & _ & Hf & _);
    [by vm_compute|].
  exists si, sb, ss. split; [exact Ei|]. split; [exact Eb|].
  split; [exact Es|].
  pose proof Ei as Ei'. pose proof Eb as Eb'. pose proof Es as Es'.
  vm_compute in Ei', Eb', Es'.
  injection Ei' as <-. injection Eb' as <-. injection Es' as <-.
  repeat split; by vm_compute.
Defined.

Lemma orb_get_state_max_frequency_range_witness :
  exists s' f,
    orb_get_state drv 3 (Some 2%positive) running_mem = Ok 0 s' /\
    heap s' !! (2%positive, orb_state.max_frequency) = Some (VUInt f) /\
    (f <= 1000000)%N.
Proof.
  destruct (orb_get_state_max_frequency_range drv 3 2%positive running_mem)
    as (s' & f & E & Hf & Hle & _); [by vm_compute|].
  exists s', f. split; [exact E|]. split; [exact Hf | exact Hle].
Defined.

(** Null outputs: on the closed descriptor 9 the failure comes back, on
    the open descriptor 3 the null pointer is written through. *)
Lemma orb_null_outputs_witness :
  (exists s', orb_get_interval drv 9 NULL running = Ok (-1) s') /\
  orb_get_batch_interval drv 3 NULL running = Fault /\
  orb_check drv 3 NULL running = Fault.
Proof.
  destruct (orb_null_outputs drv 9 running) as (Hfail & _).
  destruct (orb_null_outputs drv 3 running) as (_ & Hq & _ & Hp).
  split; [|split].
  - eexists. apply Hfail. by vm_compute.
  - apply Hq. by vm_compute.
  - apply Hp. by vm_compute.
Defined.

(** 5 s and 1500 ns are 5000001 us. *)
Lemma orb_absolute_time_exact_witness :
  orb_absolute_time {| tv_sec := 5; tv_nsec := 1500 |} = 5000001.
Proof.
  apply (orb_absolute_time_exact {| tv_sec := 5; tv_nsec := 1500 |});
    cbn; lia.
Defined.

Lemma orb_absolute_time_monotone_witness :
  orb_absolute_time {| tv_sec := 5; tv_nsec := 999999999 |} <=
  orb_absolute_time {| tv_sec := 6; tv_nsec := 0 |}.
Proof.
  apply orb_absolute_time_monotone; cbn; lia.
Defined.

(** The path of instance 7 of the accelerometer fits. *)
Lemma orb_path_instance_inj_witness :
  orb_path PATH_MAX SENSOR_PATH accel 7 = "/dev/uorb/sensor_accel7"%string
  /\ 7 = 7.
Proof.
  split; [by vm_compute|].
  apply (orb_path_instance_inj PATH_MAX SENSOR_PATH accel 7 7);
    [vm_compute; lia | vm_compute; lia | reflexivity].
Defined.

(** The long topic: instances 0 and 1 have one path. *)
Lemma orb_path_long_name_aliases_witness :
  orb_path PATH_MAX SENSOR_PATH long_topic 0 =
  orb_path PATH_MAX SENSOR_PATH long_topic 1.
Proof.
  apply (orb_path_long_name_aliases PATH_MAX SENSOR_PATH long_topic 0 1).
  vm_compute. lia.
Defined.

End Runs.
